(** * GA_VA: model registry, generation orchestrator and audio finalizer

  A shallow embedding of [backend/services/model_loader.py],
  [backend/services/tts_service.py] and the two generation endpoints of
  [backend/api/main.py], with the properties the design document states
  about them.

  Python [str] values are sequences of Unicode code points, the model
  cache is a dictionary keyed by dialect, and every method runs in a
  state-and-exception monad over the process state that also records the
  log records and the file-system and library calls a run performs. *)

From Stdlib Require Import ZArith NArith QArith Qabs List String Ascii Lia SpecFloat DecimalString.
From stdpp Require Import base option list gmap.

Local Open Scope N_scope.

(** ** Python strings *)

Module PyStr.

(** A Python [str]: its code points, in order. *)
Abbreviation pystr := (list N).

(** An ASCII literal as a [str]. *)
Definition lit (s : string) : pystr :=
  List.map N_of_ascii (list_ascii_of_string s).

Definition SP : N := 32.

(** [str.isspace] on one code point; the table is CPython's
    [_PyUnicode_IsWhitespace]. *)
Definition isspace (c : N) : bool :=
  ((9 <=? c) && (c <=? 13)) || ((28 <=? c) && (c <=? 32))
  || (c =? 133) || (c =? 160) || (c =? 5760)
  || ((8192 <=? c) && (c <=? 8202))
  || (c =? 8232) || (c =? 8233) || (c =? 8239) || (c =? 8287)
  || (c =? 12288).

(** The word [cur] (kept reversed while it is scanned) is closed. *)
Definition flush (cur : pystr) (rest : list pystr) : list pystr :=
  match cur with
  | [] => rest
  | _ => rev cur :: rest
  end.

(** [text.split()] with no separator: the scanning loop of CPython's
    [split_whitespace]; [cur] holds the characters of the word being
    scanned, last one first. *)
Fixpoint split_from (cur : pystr) (s : pystr) : list pystr :=
  match s with
  | [] => flush cur []
  | c :: s' =>
      if isspace c then flush cur (split_from [] s')
      else split_from (c :: cur) s'
  end.

Definition split (s : pystr) : list pystr := split_from [] s.

(** [sep.join(parts)]. *)
Fixpoint join (sep : pystr) (parts : list pystr) : pystr :=
  match parts with
  | [] => []
  | [p] => p
  | p :: ps => p ++ sep ++ join sep ps
  end.

(** [text.encode()]: UTF-8; a surrogate code point cannot be encoded. *)
Definition utf8_char (c : N) : option (list N) :=
  if c <? 128 then Some [c]
  else if c <? 2048 then Some [192 + c / 64; 128 + c mod 64]
  else if (55296 <=? c) && (c <=? 57343) then None
  else if c <? 65536 then
    Some [224 + c / 4096; 128 + (c / 64) mod 64; 128 + c mod 64]
  else
    Some [240 + c / 262144; 128 + (c / 4096) mod 64;
          128 + (c / 64) mod 64; 128 + c mod 64].

Fixpoint encode (s : pystr) : option (list N) :=
  match s with
  | [] => Some []
  | c :: s' =>
      match utf8_char c, encode s' with
      | Some b, Some bs => Some (b ++ bs)
      | _, _ => None
      end
  end.

End PyStr.

Import PyStr.

(** ** Text normalisation as the design document words it *)

Module TextSpec.

Definition starts_with_space (s : pystr) : bool :=
  match s with
  | c :: _ => isspace c
  | [] => false
  end.

(** Every maximal run of whitespace becomes one space character: a
    whitespace character followed by another one is dropped, the last of
    a run is replaced by a space. *)
Fixpoint collapse (s : pystr) : pystr :=
  match s with
  | [] => []
  | c :: s' =>
      if isspace c then
        if starts_with_space s' then collapse s' else SP :: collapse s'
      else c :: collapse s'
  end.

Fixpoint lstrip (s : pystr) : pystr :=
  match s with
  | c :: s' => if isspace c then lstrip s' else s
  | [] => []
  end.
Definition rstrip (s : pystr) : pystr := rev (lstrip (rev s)).
Definition trim (s : pystr) : pystr := rstrip (lstrip s).

(** "collapse internal whitespace runs to single spaces and trim" *)
Definition normalize (s : pystr) : pystr := trim (collapse s).

End TextSpec.

Import TextSpec.

(** ** Tensors and sample arithmetic *)

(** The three operations [_save_audio] applies to samples.  The service runs
    them on 32-bit floats; the same code read over exact rationals gives the
    real-number meaning of the normalisation. *)
Class SampleOps (F : Type) := {
  s_abs : F -> F;
  s_max : F -> F -> F;
  s_div : F -> F -> F
}.

(** IEEE 754 binary32: 24 bits of precision, exponents below 128. *)
Abbreviation float32 := spec_float.

Definition f32_nan : float32 := S754_nan.

Definition f32_is_nan (x : float32) : bool :=
match x with
| S754_nan => true
| _ => false
end.

(** [torch.max] propagates NaN. *)
Definition f32_max (a b : float32) : float32 :=
match SFcompare a b with
| None => S754_nan
| Some Lt => b
| Some _ => a
end.

#[export] Instance float32_ops : SampleOps float32 := {
  s_abs := SFabs;
  s_max := f32_max;
  s_div := SFdiv 24 128
}.



(** A tensor: its shape and its elements in row-major order. *)
Record Tensor (F : Type) := MkTensor {
  shape : list nat;
  data : list F
}.
Arguments MkTensor {F} shape data.
Arguments shape {F} t.
Arguments data {F} t.

Definition dim {F} (t : Tensor F) : nat := length (shape t).

Definition unsqueeze0 {F} (t : Tensor F) : Tensor F :=
  MkTensor (1%nat :: shape t) (data t).

(** [torch.max(t)] over all elements; there is none for an empty tensor. *)
Definition torch_max {F} `{SampleOps F} (xs : list F) : option F :=
match xs with
| [] => None
| x :: xs' => Some (fold_left s_max xs' x)
end.

(** [audio / torch.max(torch.abs(audio))] *)
Definition peak_normalize {F} `{SampleOps F} (audio : Tensor F) : option (Tensor F) :=
match torch_max (List.map s_abs (data audio)) with
| None => None
| Some peak => Some (MkTensor (shape audio) (List.map (fun x => s_div x peak) (data audio)))
end.

(** The tensor part of [_save_audio]: the reshaping of a flat waveform and
    the normalisation; [None] when [torch.max] raises. *)
Definition finalize_waveform {F} `{SampleOps F} (audio : Tensor F) : option (Tensor F) :=
  let audio := if Nat.eqb (dim audio) 1 then unsqueeze0 audio else audio in
  peak_normalize audio.

(** ** Paths and the file system *)

Abbreviation Path := (list N).

Definition SLASH : N := 47.

(** [p / s] of [pathlib]: an absolute right operand replaces the left one,
    an empty operand leaves the other one; otherwise the segment is
    appended. *)
Definition path_join (p : Path) (s : pystr) : Path :=
match s with
| [] => p
| c :: _ =>
    if c =? SLASH then s
    else match p with
         | [] => s
         | _ => p ++ SLASH :: s
         end
end.

Infix "//" := path_join (at level 40, left associativity).

(** [p.parent]: the path without its last segment. *)
Fixpoint parent_rev (r : Path) : Path :=
match r with
| [] => []
| c :: r' => if c =? SLASH then r' else parent_rev r'
end.

Definition parent (p : Path) : Path := rev (parent_rev (rev p)).

(** One training sample of [metadata.json]. *)
Record Sample := MkSample {
  sample_id : pystr;
  sample_text : pystr;
  sample_filename : pystr;
  sample_description : pystr
}.

Inductive Node :=
| Dir
| File
| Symlink (target : pystr)
| WavFile (audio : Tensor float32) (sample_rate : Z)
| MetadataFile (catalog : gmap pystr (list Sample)).

Abbreviation FS := (gmap Path Node).

(** What [os.stat] finds at [p], following symbolic links (at most 40 of
    them, as the kernel does). *)
Fixpoint stat_at (fuel : nat) (fs : FS) (p : Path) : option Node :=
match fs !! p with
| Some (Symlink target) =>
    match fuel with
    | O => None
    | S fuel' => stat_at fuel' fs (parent p // target)
    end
| other => other
end.

Definition exists_in (fs : FS) (p : Path) : bool :=
  bool_decide (is_Some (stat_at 40 fs p)).

Definition is_symlink_in (fs : FS) (p : Path) : bool :=
match fs !! p with
| Some (Symlink _) => true
| _ => false
end.

(** ** Exceptions, events and the process state *)

Inductive exn :=
| ValueError (msg : pystr)
| UnicodeEncodeError
| FileNotFoundError (msg : pystr)
| ZeroDivisionError
| IndexError
| RuntimeError (msg : pystr)
| OSError (msg : pystr)
| HTTPException (status : N) (detail : pystr).

(** [except ValueError] also catches [UnicodeEncodeError], its subclass. *)
Definition is_ValueError (e : exn) : bool :=
match e with
| ValueError _ | UnicodeEncodeError => true
| _ => false
end.

Definition decimal (n : N) : pystr :=
  lit (NilEmpty.string_of_uint (N.to_uint n)).

(** [str(e)] *)
Definition str_exn (e : exn) : pystr :=
match e with
| ValueError msg | FileNotFoundError msg | RuntimeError msg | OSError msg => msg
| UnicodeEncodeError => lit "'utf-8' codec can't encode character: surrogates not allowed"
| ZeroDivisionError => lit "division by zero"
| IndexError => lit "tuple index out of range"
| HTTPException status detail => decimal status ++ lit ": " ++ detail
end.

Inductive Device := mps | cuda | cpu.

Definition device_name (d : Device) : pystr :=
match d with
| mps => lit "mps"
| cuda => lit "cuda"
| cpu => lit "cpu"
end.

(** A loaded [ChatterboxMultilingualTTS].  [oid] is the identity of the
    Python object; [text_tokens_dict_size] is the size of the text
    vocabulary of the [T3Config] the model was built with. *)
Record ModelHandle := MkModel {
  oid : nat;
  model_dir : Path;
  device : Device;
  text_tokens_dict_size : Z;
  sr : Z
}.

(** The sampling parameters of a request; Python floats. *)
Record SamplingParams := MkParams {
  temperature : spec_float;
  repetition_penalty : spec_float;
  top_p : spec_float;
  min_p : spec_float;
  cfg_weight : spec_float
}.

(** The keyword arguments of [model.generate]. *)
Record GenKwargs := MkKwargs {
  language_id : pystr;
  kw_temperature : spec_float;
  kw_repetition_penalty : spec_float;
  kw_top_p : spec_float;
  kw_min_p : spec_float;
  kw_cfg_weight : spec_float;
  audio_prompt_path : option pystr
}.

Inductive Level := INFO | WARNING | ERROR.

(** What a run does besides changing the process state: log records (the
    format string of the message and its string-valued fields), file-system
    calls and calls into the model library. *)
Inductive Event :=
| Log (level : Level) (message : string) (fields : list pystr)
| FsExists (p : Path)
| FsIsSymlink (p : Path)
| FsReadlink (p : Path)
| FsStat (p : Path)
| FsOpen (p : Path)
| FsWrite (p : Path)
| CallFromLocal (p : Path) (d : Device) (vocab : Z)
| CallGenerate (model : nat) (text : pystr) (kwargs : GenKwargs).

(** Log records, and calls into the model library. *)
Definition is_log (ev : Event) : bool :=
match ev with
| Log _ _ _ => true
| _ => false
end.

Definition library_call (ev : Event) : bool :=
match ev with
| CallFromLocal _ _ _ | CallGenerate _ _ _ => true
| _ => false
end.

(** The mutable state of the process. *)
Record World := MkWorld {
  fs : FS;
  (** [ModelLoader._models] *)
  _models : gmap pystr ModelHandle;
  (** the [text_tokens_dict_size] of the configuration that
      [T3Config.multilingual()] returns at present *)
  T3Config_multilingual : Z;
  next_oid : nat;
  (** how often the clock has been read, how often the sampler has run *)
  ticks : nat;
  draws : nat
}.

(** The vocabulary size of the architecture's own [T3Config.multilingual],
    and the one the fine-tuned checkpoints were trained with. *)
Definition DEFAULT_VOCAB : Z := 2352.
Definition FINE_TUNED_VOCAB : Z := 2454.

Definition initial_world (fs0 : FS) : World :=
  MkWorld fs0 ∅ DEFAULT_VOCAB 0 0 0.

(** ** The monad of runs *)

Record Run (A : Type) := MkRun {
  out : exn + A;
  post : World;
  emitted : list Event
}.
Arguments MkRun {A} out post emitted.
Arguments out {A} r.
Arguments post {A} r.
Arguments emitted {A} r.

Definition M (A : Type) : Type := World -> Run A.

Definition ret {A} (a : A) : M A := fun w => MkRun (inr a) w [].

Definition raise {A} (e : exn) : M A := fun w => MkRun (inl e) w [].

Definition bind {A B} (m : M A) (k : A -> M B) : M B := fun w =>
  match m w with
  | MkRun (inl e) w' evs => MkRun (inl e) w' evs
  | MkRun (inr a) w' evs =>
      match k a w' with
      | MkRun o w'' evs' => MkRun o w'' (evs ++ evs')
      end
  end.

(** [try: m  except Exception as e: handler e] *)
Definition try_except {A} (m : M A) (handler : exn -> M A) : M A := fun w =>
  match m w with
  | MkRun (inl e) w' evs =>
      match handler e w' with
      | MkRun o w'' evs' => MkRun o w'' (evs ++ evs')
      end
  | MkRun (inr a) w' evs => MkRun (inr a) w' evs
  end.

Definition gets {A} (f : World -> A) : M A := fun w => MkRun (inr (f w)) w [].

Definition modify (f : World -> World) : M unit := fun w => MkRun (inr tt) (f w) [].

Definition emit (ev : Event) : M unit := fun w => MkRun (inr tt) w [ev].

Notation "'let*' x ':=' m 'in' k" := (bind m (fun x => k))
  (at level 10, x name, m at level 100, k at level 200).
Notation "m '>>' k" := (bind m (fun _ => k))
  (at level 100, k at level 200, right associativity).

Definition log (level : Level) (message : string) (fields : list pystr) : M unit :=
  emit (Log level message fields).

(** [p.exists()] *)
Definition path_exists (p : Path) : M bool :=
  emit (FsExists p) >> gets (fun w => exists_in (fs w) p).

Definition path_is_symlink (p : Path) : M bool :=
  emit (FsIsSymlink p) >> gets (fun w => is_symlink_in (fs w) p).

(** ** The environment of the services *)

(** What the services take from outside this repository: where the
    backend is installed, which accelerators [torch] reports, the clock,
    [hashlib], and the model library ([ChatterboxMultilingualTTS] and
    [torchaudio]), whose functions may fail with an exception. *)
Class Extern := {
  (** [Path(__file__).parent.parent.parent] *)
  base_dir : Path;
  mps_is_available : bool;
  cuda_is_available : bool;
  (** the [n]-th reading of [time.time()] *)
  wall_clock : nat -> Q;
  (** [hashlib.md5(bytes).hexdigest()] *)
  md5_hexdigest : list N -> pystr;
  (** [from_local(dir, device)] under a [T3Config.multilingual] of the
      given vocabulary size: an exception, or a model of some sample rate *)
  from_local : FS -> Path -> Device -> Z -> exn + Z;
  (** [model.generate(text, **kwargs)] at the given state of the sampler *)
  generate : ModelHandle -> FS -> nat -> pystr -> GenKwargs -> exn + Tensor float32;
  (** the exception [torchaudio.save] raises, if it does *)
  torchaudio_save_raises : FS -> Path -> Tensor float32 -> Z -> option exn
}.

Section Services.

Context `{E : Extern}.

(** *** model_loader.py *)

Definition _device : Device :=
  if mps_is_available then mps
  else if cuda_is_available then cuda
  else cpu.

Definition models_dir : Path := base_dir // lit "models".

(** The body of [patched_multilingual] replaces the class method. *)
Definition patch_T3Config (vocab : Z) : M unit :=
  modify (fun w => MkWorld (fs w) (_models w) vocab (next_oid w) (ticks w) (draws w)).

Definition cache_put (dialect : pystr) (model : ModelHandle) : M unit :=
  modify (fun w => MkWorld (fs w) (<[dialect := model]> (_models w))
                           (T3Config_multilingual w) (next_oid w) (ticks w) (draws w)).

(** [ChatterboxMultilingualTTS.from_local(path, device=device)]: the
    library builds its T3 from [T3Config.multilingual()], as patched or not
    at the time of the call; the object it returns is a new one. *)
Definition ChatterboxMultilingualTTS_from_local (path : Path) (dev : Device) : M ModelHandle :=
  let* vocab := gets T3Config_multilingual in
  emit (CallFromLocal path dev vocab) >>
  let* files := gets fs in
  match from_local files path dev vocab with
  | inl e => raise e
  | inr rate =>
      let* id := gets next_oid in
      modify (fun w => MkWorld (fs w) (_models w) (T3Config_multilingual w)
                               (S (next_oid w)) (ticks w) (draws w)) >>
      ret (MkModel id path dev vocab rate)
  end.

Definition model_files : list (string * string) :=
  [ ("T3 (Text-to-Speech Transformer)", "t3_23lang.safetensors");
    ("S3Gen (Speech Generator)", "s3gen.pt");
    ("Voice Encoder", "ve.pt");
    ("Conditionals (Voice/Style)", "conds.pt");
    ("Tokenizer", "mtl_tokenizer.json") ]%string.

(** One round of the loop that reports which checkpoint files are there. *)
Definition report_file (local_model_path : Path) (entry : string * string) : M unit :=
  let component := lit (fst entry) in
  let file_path := local_model_path // lit (snd entry) in
  let* present := path_exists file_path in
  if present then
    let* link := path_is_symlink file_path in
    if link then
      let* files := gets fs in
      match files !! file_path with
      | Some (Symlink target) =>
          emit (FsReadlink file_path) >>
          emit (FsStat (local_model_path // target)) >>
          log INFO "  ✓ {component}" [component] >>
          log INFO "    Symlink: {file_path.name} -> {target}" [lit (snd entry); target] >>
          log INFO "    Actual: {resolved.name} ({size_mb:.1f} MB)" []
      | _ => ret tt
      end
    else
      emit (FsStat file_path) >>
      log INFO "  ✓ {component}: {file_path.name} ({size_mb:.1f} MB)" [component; lit (snd entry)]
  else
    log WARNING "  ✗ {component}: NOT FOUND at {file_path.name}" [component; lit (snd entry)].

Fixpoint for_each {A} (f : A -> M unit) (l : list A) : M unit :=
match l with
| [] => ret tt
| x :: l' => f x >> for_each f l'
end.

Definition load_model (dialect : pystr) : M ModelHandle :=
  let* cached := gets (fun w => _models w !! dialect) in
  match cached with
  | Some model =>
      log INFO "Model for {dialect} already loaded" [dialect] >>
      ret model
  | None =>
      let local_model_path := models_dir // dialect in
      let* present := path_exists local_model_path in
      if negb present then
        raise (FileNotFoundError
                 (lit "Model not found at " ++ local_model_path
                  ++ lit ". Please download from HuggingFace first."))
      else
        log INFO "Loading {dialect} model from local path: {local_model_path}..."
            [dialect; local_model_path] >>
        log INFO "Using device: {self._device}" [device_name _device] >>
        try_except
          (patch_T3Config 2454 >>
           log INFO "PATCH APPLIED: T3Config.multilingual patched to use vocab size 2454" [] >>
           log INFO "============================================================" [] >>
           log INFO "LOADING FINE-TUNED MODEL FILES:" [] >>
           for_each (report_file local_model_path) model_files >>
           log INFO "============================================================" [] >>
           log INFO "NOTE: These are YOUR FINE-TUNED models from Genarabia-ai" [] >>
           log INFO "      NOT the pretrained ResembleAI/chatterbox base model" [] >>
           log INFO "============================================================" [] >>
           let* model := ChatterboxMultilingualTTS_from_local local_model_path _device in
           cache_put dialect model >>
           log INFO "✅ Successfully loaded {dialect} model" [dialect] >>
           log INFO "Model sample rate: {model.sr} Hz" [] >>
           ret model)
          (fun e =>
             log ERROR "Error loading {dialect} from HuggingFace: {str(e)}" [dialect; str_exn e] >>
             log ERROR "{traceback.format_exc()}" [] >>
             raise e)
  end.

(** The message of the error for a missing model directory. *)
Definition not_found_message (dialect : pystr) : pystr :=
  lit "Model not found at " ++ (models_dir // dialect)
  ++ lit ". Please download from HuggingFace first.".

Definition DIALECTS : list pystr :=
  [lit "egyptian"; lit "emirates"; lit "ksa"; lit "kuwaiti"].

Definition load_all_models : M unit :=
  for_each
    (fun dialect =>
       try_except (load_model dialect >> ret tt)
         (fun e =>
            match e with
            | FileNotFoundError _ =>
                log WARNING "Skipping {dialect}: {str(e)}" [dialect; str_exn e]
            | _ =>
                log ERROR "Failed to load {dialect}: {str(e)}" [dialect; str_exn e]
            end))
    DIALECTS.

Definition get_model (dialect : pystr) : M ModelHandle :=
  let* cached := gets (fun w => _models w !! dialect) in
  match cached with
  | None => load_model dialect
  | Some model => ret model
  end.

Definition clear_cache : M unit :=
  modify (fun w => MkWorld (fs w) ∅ (T3Config_multilingual w)
                           (next_oid w) (ticks w) (draws w)) >>
  log INFO "Model cache cleared" [].

(** *** tts_service.py *)

Definition output_dir : Path := base_dir // lit "generated_audio".

Definition preprocess_text (text : pystr) : pystr :=
  join [SP] (split text).

Definition valid_dialects : list pystr :=
  [lit "egyptian"; lit "emirates"; lit "ksa"; lit "kuwaiti"].

(** [time.time()] *)
Definition time_time : M Q :=
  let* n := gets ticks in
  modify (fun w => MkWorld (fs w) (_models w) (T3Config_multilingual w)
                           (next_oid w) (S (ticks w)) (draws w)) >>
  ret (wall_clock n).

(** [model.generate(text, **kwargs)] *)
Definition model_generate (model : ModelHandle) (text : pystr) (kwargs : GenKwargs)
  : M (Tensor float32) :=
  emit (CallGenerate (oid model) text kwargs) >>
  let* files := gets fs in
  let* n := gets draws in
  modify (fun w => MkWorld (fs w) (_models w) (T3Config_multilingual w)
                           (next_oid w) (ticks w) (S (draws w))) >>
  match generate model files n text kwargs with
  | inl e => raise e
  | inr wav => ret wav
  end.

(** [torchaudio.save(str(path), audio, sample_rate, format="wav")] *)
Definition torchaudio_save (path : Path) (audio : Tensor float32) (sample_rate : Z) : M unit :=
  emit (FsWrite path) >>
  let* files := gets fs in
  match torchaudio_save_raises files path audio sample_rate with
  | Some e => raise e
  | None =>
      modify (fun w => MkWorld (<[path := WavFile audio sample_rate]> (fs w)) (_models w)
                               (T3Config_multilingual w) (next_oid w) (ticks w) (draws w))
  end.

Definition _save_audio (audio : Tensor float32) (path : Path) (sample_rate : Z) : M unit :=
  match finalize_waveform audio with
  | None => raise (RuntimeError (lit "max(): Expected reduction dim to be specified for input.numel() == 0."))
  | Some audio =>
      torchaudio_save path audio sample_rate >>
      log INFO "Audio saved to: {path}" [path]
  end.

(** The file name [generate_audio] chooses when the caller gives none:
    [output_dir / f"{dialect}_{text_hash}.wav"], where [text_hash] is
    [hashlib.md5(text.encode()).hexdigest()[:8]]. *)
Definition default_output_path (text dialect : pystr) : option Path :=
  match encode text with
  | None => None
  | Some bytes =>
      let text_hash := take 8 (md5_hexdigest bytes) in
      Some (output_dir // (dialect ++ lit "_" ++ text_hash ++ lit ".wav"))
  end.

(** The keyword arguments [generate_audio] builds; [reference] is the
    reference path when one was given and exists. *)
Definition gen_kwargs (params : SamplingParams) (reference : option Path) : GenKwargs :=
  MkKwargs (lit "ar") (temperature params) (repetition_penalty params)
           (top_p params) (min_p params) (cfg_weight params) reference.

(** [a / b] on Python numbers *)
Definition py_div (a b : Q) : M Q :=
  if Qeq_bool b 0 then raise ZeroDivisionError else ret (a / b)%Q.

(** [wav.shape[-1]] *)
Definition last_dim (wav : Tensor float32) : M nat :=
  match last (shape wav) with
  | Some n => ret n
  | None => raise IndexError
  end.

Definition generate_audio (text dialect : pystr) (params : SamplingParams)
    (reference_audio_path output_path : option Path) : M (Path * Q) :=
  log INFO "Generating audio for dialect: {dialect}" [dialect] >>
  log INFO "Input text: {text}" [text] >>
  log INFO "Parameters: temp={temperature}, rep_pen={repetition_penalty}, top_p={top_p}, min_p={min_p}, cfg={cfg_weight}" [] >>
  match reference_audio_path with
  | Some p => log INFO "Using reference audio: {reference_audio_path}" [p]
  | None => ret tt
  end >>
  if negb (bool_decide (dialect ∈ valid_dialects)) then
    raise (ValueError (lit "Invalid dialect. Must be one of: ['egyptian', 'emirates', 'ksa', 'kuwaiti']"))
  else
    let processed_text := preprocess_text text in
    try_except
      (let* model := get_model dialect in
       log INFO "Generating audio with ChatterBox model..." [] >>
       let* start_time := time_time in
       let* reference :=
         match reference_audio_path with
         | Some p =>
             let* present := path_exists p in
             if present then
               log INFO "✅ Using reference audio for voice cloning: {reference_audio_path}" [p] >>
               ret (Some p)
             else ret None
         | None => ret None
         end in
       let* wav := model_generate model processed_text (gen_kwargs params reference) in
       let* now := time_time in
       let inference_time := (now - start_time)%Q in
       let* output_path :=
         match output_path with
         | Some p => ret p
         | None =>
             match default_output_path text dialect with
             | Some p => ret p
             | None => raise UnicodeEncodeError
             end
         end in
       _save_audio wav output_path (sr model) >>
       let* samples := last_dim wav in
       let* audio_duration := py_div (inject_Z (Z.of_nat samples)) (inject_Z (sr model)) in
       log INFO "Audio saved to: {output_path}" [output_path] >>
       log INFO "Audio generated successfully: {output_path}" [output_path] >>
       log INFO "Audio duration: {audio_duration:.2f}s" [] >>
       log INFO "⏱️  Inference time: {inference_time:.2f}s" [] >>
       let* _ := py_div audio_duration inference_time in
       log INFO "⚡ Real-time factor: {audio_duration/inference_time:.2f}x" [] >>
       ret (output_path, inference_time))
      (fun e =>
         log ERROR "Error generating audio: {str(e)}" [str_exn e] >>
         raise e).

(** *** api/main.py: the two endpoints that generate audio *)

Record TTSRequest := MkTTSRequest {
  req_text : pystr;
  req_dialect : pystr;
  req_params : SamplingParams;
  reference_audio_file : option pystr
}.

Record CompareRequest := MkCompareRequest {
  cmp_dialect : pystr;
  cmp_sample_id : pystr;
  cmp_params : SamplingParams;
  use_sample_as_reference : option bool
}.

(** [FileResponse(path=..., media_type=..., filename=...)]; [path] is given
    the value [generate_audio] returned. *)
Record FileResponse := MkFileResponse {
  fr_path : Path * Q;
  fr_media_type : pystr;
  fr_filename : pystr
}.

Definition TRAINING_SAMPLES_DIR : Path := base_dir // lit "training_samples".
Definition METADATA_PATH : Path := base_dir // lit "training_samples" // lit "metadata.json".
Definition TEMP_REFERENCE_DIR : Path := lit "temp_reference_audio".

(** [load_metadata()]: the catalog is read from its file at every call. *)
Definition load_metadata : M (gmap pystr (list Sample)) :=
  emit (FsOpen METADATA_PATH) >>
  let* files := gets fs in
  match stat_at 40 files METADATA_PATH with
  | Some (MetadataFile catalog) => ret catalog
  | Some Dir => raise (OSError (lit "[Errno 21] Is a directory: " ++ METADATA_PATH))
  | Some _ => raise (ValueError (lit "Expecting value: line 1 column 1 (char 0)"))
  | None => raise (FileNotFoundError (lit "[Errno 2] No such file or directory: " ++ METADATA_PATH))
  end.

Definition generate_tts (request : TTSRequest) : M FileResponse :=
  try_except
    (log INFO "TTS request received - Dialect: {request.dialect}, Text: {request.text}"
         [req_dialect request; req_text request] >>
     let* reference_audio_path :=
       match reference_audio_file request with
       | Some (c :: name) =>
           let temp_ref_path := TEMP_REFERENCE_DIR // (c :: name) in
           let* present := path_exists temp_ref_path in
           if present then
             log INFO "Using uploaded reference audio: {reference_audio_path}" [temp_ref_path] >>
             ret (Some temp_ref_path)
           else
             log WARNING "Reference audio file not found: {request.reference_audio_file}" [c :: name] >>
             ret None
       | _ => ret None
       end in
     let* audio_path :=
       generate_audio (req_text request) (req_dialect request) (req_params request)
                      reference_audio_path None in
     ret (MkFileResponse audio_path (lit "audio/wav")
                         (req_dialect request ++ lit "_generated.wav")))
    (fun e =>
       if is_ValueError e then
         log ERROR "Validation error: {str(e)}" [str_exn e] >>
         raise (HTTPException 400 (str_exn e))
       else
         match e with
         | FileNotFoundError _ =>
             log ERROR "Model not found: {str(e)}" [str_exn e] >>
             raise (HTTPException 404 (lit "Model not found. Please ensure models are downloaded."))
         | _ =>
             log ERROR "Error generating TTS: {str(e)}" [str_exn e] >>
             raise (HTTPException 500 (lit "Error generating audio: " ++ str_exn e))
         end).

Definition compare_with_sample (request : CompareRequest) : M FileResponse :=
  try_except
    (let* metadata := load_metadata in
     match metadata !! cmp_dialect request with
     | None =>
         raise (HTTPException 404 (lit "Dialect '" ++ cmp_dialect request ++ lit "' not found"))
     | Some samples =>
         match List.find (fun s => bool_decide (sample_id s = cmp_sample_id request)) samples with
         | None =>
             raise (HTTPException 404 (lit "Sample '" ++ cmp_sample_id request ++ lit "' not found"))
         | Some sample =>
             let* reference_audio_path :=
               match use_sample_as_reference request with
               | Some true =>
                   let p := TRAINING_SAMPLES_DIR // cmp_dialect request // sample_filename sample in
                   log INFO "Using sample audio as reference: {reference_audio_path}" [p] >>
                   ret (Some p)
               | _ => ret None
               end in
             let* audio_path :=
               generate_audio (sample_text sample) (cmp_dialect request) (cmp_params request)
                              reference_audio_path None in
             ret (MkFileResponse audio_path (lit "audio/wav")
                    (cmp_dialect request ++ lit "_" ++ cmp_sample_id request ++ lit "_generated.wav"))
         end
     end)
    (fun e =>
       match e with
       | HTTPException _ _ => raise e
       | _ =>
           log ERROR "Error in comparison: {str(e)}" [str_exn e] >>
           raise (HTTPException 500 (lit "Error generating comparison: " ++ str_exn e))
       end).

(** Where [compare_with_sample] looks for the audio of a sample, and
    [generate_tts] for an uploaded reference. *)
Definition sample_path (request : CompareRequest) (sample : Sample) : Path :=
  TRAINING_SAMPLES_DIR // cmp_dialect request // sample_filename sample.


End Services.

(** ** Histories of the process *)

(** The calls that enter the services. *)
Inductive Call :=
| CallLoadModel (dialect : pystr)
| CallGetModel (dialect : pystr)
| CallLoadAllModels
| CallClearCache
| CallGenerateAudio (text dialect : pystr) (params : SamplingParams)
                    (reference_audio_path output_path : option Path)
| CallGenerateTTS (request : TTSRequest)
| CallCompare (request : CompareRequest).

(** The state a call leaves behind, whether it returns or raises. *)
Definition after `{E : Extern} (c : Call) (w : World) : World :=
match c with
| CallLoadModel d => post (load_model d w)
| CallGetModel d => post (get_model d w)
| CallLoadAllModels => post (load_all_models w)
| CallClearCache => post (clear_cache w)
| CallGenerateAudio t d ps r o => post (generate_audio t d ps r o w)
| CallGenerateTTS request => post (generate_tts request w)
| CallCompare request => post (compare_with_sample request w)
end.

(** Someone outside the process changes the files. *)
Definition with_fs (files : FS) (w : World) : World :=
  MkWorld files (_models w) (T3Config_multilingual w) (next_oid w) (ticks w) (draws w).

(** The states of a process that started with an empty cache and the
    library's own configuration. *)
Inductive reachable `{E : Extern} : World -> Prop :=
| reachable_start (files : FS) : reachable (initial_world files)
| reachable_call (c : Call) (w : World) : reachable w -> reachable (after c w)
| reachable_files (files : FS) (w : World) : reachable w -> reachable (with_fs files w).

(** Every cached model has its directory on disk. *)
Definition cache_on_disk `{E : Extern} (w : World) : Prop :=
  forall d model, _models w !! d = Some model -> exists_in (fs w) (models_dir // d) = true.

(** The states of a process whose files nobody else touches. *)
Inductive undisturbed `{E : Extern} : World -> Prop :=
| undisturbed_start (files : FS) : undisturbed (initial_world files)
| undisturbed_call (c : Call) (w : World) : undisturbed w -> undisturbed (after c w).

(** A run that fails with the error for an unknown dialect, leaves the
    process state as it was and makes no file-system or library call: it
    only writes log records. *)
Definition rejects_dialect {A} (r : Run A) (w : World) : Prop :=
  (exists msg, out r = inl (ValueError msg))
  /\ post r = w
  /\ forallb is_log (emitted r) = true.

(** ** Vocabulary used in the statements *)

(** No call into the model library among the events. *)
Definition quiet (evs : list Event) : Prop := Forall (fun ev => library_call ev = false) evs.

(** The state after the vocabulary patch, and after a model was loaded
    and cached. *)
Definition patched (w : World) : World :=
  MkWorld (fs w) (_models w) 2454 (next_oid w) (ticks w) (draws w).

Definition loaded (dialect : pystr) (model : ModelHandle) (w : World) : World :=
  MkWorld (fs w) (<[dialect := model]> (_models w)) 2454 (S (next_oid w)) (ticks w) (draws w).

(** Every model in the cache was built with the fine-tuned vocabulary. *)
Definition patched_cache (w : World) : Prop :=
  forall d model, _models w !! d = Some model -> text_tokens_dict_size model = FINE_TUNED_VOCAB.

(** What [CallGenerate] events carry. *)
Definition generates (P : pystr -> GenKwargs -> Prop) (ev : Event) : Prop :=
match ev with
| CallGenerate _ text kwargs => P text kwargs
| _ => True
end.


(** The reference handed to the model: the path given, if it exists. *)
Definition effective_reference (files : FS) (r : option Path) : option Path :=
match r with
| Some p => if exists_in files p then Some p else None
| None => None
end.

(** The same request without the wish for a reference. *)
Definition without_sample_reference (request : CompareRequest) : CompareRequest :=
  MkCompareRequest (cmp_dialect request) (cmp_sample_id request) (cmp_params request) (Some false).

Definition without_reference_file (request : TTSRequest) : TTSRequest :=
  MkTTSRequest (req_text request) (req_dialect request) (req_params request) None.


(** [wp m w Q]: the run of [m] from [w] satisfies [Q]. *)
Definition wp {A} (m : M A) (w : World) (Q : Run A -> Prop) : Prop := Q (m w).

(** Events that happened before a run. *)
Definition prepend {A} (evs : list Event) (r : Run A) : Run A :=
  MkRun (out r) (post r) (evs ++ emitted r).

(** [preserves P m]: a run of [m] keeps [P] true of the process state,
    however it ends. *)
Definition preserves {A} (P : World -> Prop) (m : M A) : Prop :=
  forall w, P w -> P (post (m w)).

(** [emits P m]: every event of a run of [m] satisfies [P]. *)
Definition emits {A} (P : Event -> Prop) (m : M A) : Prop :=
  forall w, Forall P (emitted (m w)).

(** A silent waveform: every sample is a zero of either sign. *)
Definition is_zero (x : float32) : Prop :=
match x with
| S754_zero _ => True
| _ => False
end.

(** ** A laboratory environment *)

(** An installation under [/app] without accelerators, a clock that
    advances by one second per reading, and stand-ins for the libraries:
    the checkpoints load only under the fine-tuned vocabulary, the model
    answers every text with the same two samples, and writing never
    fails. *)

Definition hex_digit (n : N) : N := if n <? 10 then 48 + n else 87 + n.

(** A stand-in for MD5: thirty-two hexadecimal digits read off the bytes. *)
Definition toy_digest (bytes : list N) : pystr :=
  List.map (fun b => hex_digit (b mod 16)) (firstn 32 (bytes ++ repeat 0 32)).

Definition f32_minus_half : float32 := S754_finite true 8388608 (-24).
Definition f32_three_tenths : float32 := S754_finite false 10066330 (-25).
Definition f32_zero : float32 := S754_zero false.

Definition silence : Tensor float32 :=
  MkTensor [3%nat] [f32_zero; f32_zero; f32_zero].

Definition lab_wav : Tensor float32 :=
  MkTensor [1%nat; 2%nat] [f32_minus_half; f32_three_tenths].

Definition lab : Extern := {|
  base_dir := lit "/app";
  mps_is_available := false;
  cuda_is_available := false;
  wall_clock := fun n => inject_Z (Z.of_nat n);
  md5_hexdigest := toy_digest;
  from_local := fun _ _ _ vocab =>
    if (vocab =? 2454)%Z then inr 24000%Z
    else inl (RuntimeError (lit "size mismatch for text_emb.weight"));
  generate := fun _ _ _ _ _ => inr lab_wav;
  torchaudio_save_raises := fun _ _ _ _ => None
|}.

(** The defaults of [generate_audio]: 0.8, 2.0, 1.0, 0.05 and 0.5 as
    64-bit floats. *)
Definition default_params : SamplingParams :=
  MkParams (S754_finite false 7205759403792794 (-53))
           (S754_finite false 4503599627370496 (-51))
           (S754_finite false 4503599627370496 (-52))
           (S754_finite false 7205759403792794 (-57))
           (S754_finite false 4503599627370496 (-53)).

(** "مرحبا    بك" and "مرحبا بك" *)
Definition greeting_raw : pystr :=
  [1605; 1585; 1581; 1576; 1575; 32; 32; 32; 32; 1576; 1603].
Definition greeting : pystr :=
  [1605; 1585; 1581; 1576; 1575; 32; 1576; 1603].

Definition lab_catalog : gmap pystr (list Sample) :=
  {[ lit "egyptian" := [MkSample (lit "sample1") greeting (lit "sample1.wav") (lit "greeting")] ]}.

(** The Egyptian model is installed, the catalog of samples is there,
    the audio of the samples is not. *)
Definition lab_files : FS :=
  <[ lit "/app/models/egyptian" := Dir ]>
  (<[ lit "/app/training_samples/metadata.json" := MetadataFile lab_catalog ]> ∅).

Definition lab_start : World := initial_world lab_files.

(** The state after the Egyptian model was loaded. *)
Definition lab_warm : World := post (load_model (E := lab) (lit "egyptian") lab_start).

Definition lab_compare : CompareRequest :=
  MkCompareRequest (lit "egyptian") (lit "sample1") default_params (Some true).

Definition lab_request : TTSRequest :=
  MkTTSRequest greeting_raw (lit "egyptian") default_params (Some (lit "reference_1a2b3c4d.wav")).

(** ** Auxiliary readings used in the proofs *)

(** [flush] on a word that is not reversed. *)
Definition push (w : pystr) (rest : list pystr) : list pystr :=
match w with
| [] => rest
| _ => w :: rest
end.

(** The words of [s] read from its end: the word [s] starts with (empty
    when [s] starts with whitespace) and the words after it. *)
Fixpoint scan (s : pystr) : pystr * list pystr :=
match s with
| [] => ([], [])
| c :: s' =>
    let (w, rest) := scan s' in
    if isspace c then ([], push w rest) else (c :: w, rest)
end.

(** Every word with a space before it. *)
Definition spaced (words : list pystr) : pystr :=
  concat (List.map (fun w => SP :: w) words).

Fixpoint ends_with_space (s : pystr) : bool :=
match s with
| [] => false
| [c] => isspace c
| _ :: s' => ends_with_space s'
end.

Definition plain (w : pystr) : Prop := Forall (fun c => isspace c = false) w.
Definition word (w : pystr) : Prop := w <> [] /\ plain w.

(** The space a collapsed text ends with when the text ends with whitespace. *)
Definition tail_space (s : pystr) : pystr := if ends_with_space s then [SP] else [].

(** [s] does not end with whitespace. *)
Definition tidy_end (s : pystr) : Prop :=
  match rev s with
  | [] => True
  | c :: _ => isspace c = false
  end.

(** The characters of a text that are not whitespace. *)
Definition visible (s : pystr) : pystr := List.filter (fun c => negb (isspace c)) s.

(** ** The rest of api/main.py *)

(** [FileResponse] as [get_sample_audio] builds it: [path] is a path. *)
Record SampleFile := MkSampleFile {
  sf_path : Path;
  sf_media_type : pystr;
  sf_filename : pystr
}.

(** The dictionary [upload_reference_audio] returns. *)
Record Upload := MkUpload {
  up_status : pystr;
  up_filename : pystr;
  up_path : pystr
}.

(** [s.endswith(suffix)] *)
Definition endswith (s suffix : pystr) : bool :=
  bool_decide (drop (length s - length suffix) s = suffix).

Section Application.

Context `{E : Extern}.

(** The exception [open(path, "wb")] raises, if it does. *)
Variable open_wb_raises : FS -> Path -> option exn.

Definition startup_event : M unit :=
  log INFO "Starting ChatterBox TTS API..." [] >>
  log INFO "Device: {model_loader.device}" [device_name _device] >>
  try_except
    (log INFO "Preloading models..." [] >>
     load_all_models >>
     log INFO "All models loaded successfully!" [])
    (fun e =>
       log WARNING "Could not preload all models: {str(e)}" [str_exn e] >>
       log INFO "Models will be loaded on-demand" []).

Definition get_sample_audio (dialect wanted : pystr) : M SampleFile :=
  try_except
    (let* metadata := load_metadata in
     match metadata !! dialect with
     | None =>
         raise (HTTPException 404 (lit "Dialect '" ++ dialect ++ lit "' not found"))
     | Some samples =>
         match List.find (fun s => bool_decide (sample_id s = wanted)) samples with
         | None =>
             raise (HTTPException 404 (lit "Sample '" ++ wanted ++ lit "' not found"))
         | Some sample =>
             let audio_path := TRAINING_SAMPLES_DIR // dialect // sample_filename sample in
             let* present := path_exists audio_path in
             if negb present then
               raise (HTTPException 404 (lit "Audio file not found: " ++ sample_filename sample))
             else
               ret (MkSampleFile audio_path (lit "audio/wav") (sample_filename sample))
         end
     end)
    (fun e =>
       match e with
       | HTTPException _ _ => raise e
       | _ =>
           log ERROR "Error retrieving sample: {str(e)}" [str_exn e] >>
           raise (HTTPException 500 (lit "Error retrieving sample: " ++ str_exn e))
       end).

(** [with open(file_path, "wb") as buffer: buffer.write(content)] *)
Definition write_upload (file_path : Path) : M unit :=
  emit (FsOpen file_path) >>
  let* files := gets fs in
  match open_wb_raises files file_path with
  | Some e => raise e
  | None =>
      emit (FsWrite file_path) >>
      modify (fun w => MkWorld (<[file_path := File]> (fs w)) (_models w)
                               (T3Config_multilingual w) (next_oid w) (ticks w) (draws w))
  end.

(** [unique] is the value of [str(uuid.uuid4())] at this call, [filename]
    the name the client gave the file. *)
Definition upload_reference_audio (unique filename : pystr) : M Upload :=
  try_except
    (if negb (endswith filename (lit ".wav")) then
       raise (HTTPException 400 (lit "Only WAV files are supported"))
     else
       let unique_id := take 8 unique in
       let name := lit "reference_" ++ unique_id ++ lit ".wav" in
       let file_path := TEMP_REFERENCE_DIR // name in
       write_upload file_path >>
       log INFO "Reference audio uploaded: {file_path}" [file_path] >>
       ret (MkUpload (lit "success") name file_path))
    (fun e =>
       log ERROR "Error uploading reference audio: {str(e)}" [str_exn e] >>
       raise (HTTPException 500 (lit "Error uploading file: " ++ str_exn e))).

End Application.

(** ** More vocabulary for the statements *)

(** What the registry keeps of the process state. *)
Definition registry (w : World) : gmap pystr ModelHandle * Z * nat :=
  (_models w, T3Config_multilingual w, next_oid w).

(** Every cached model was loaded from the directory of its dialect on
    the device of the process, and is an object of its own. *)
Definition bound_cache `{E : Extern} (w : World) : Prop :=
  forall d model, _models w !! d = Some model ->
    model_dir model = models_dir // d /\ device model = _device
    /\ (oid model < next_oid w)%nat.

Definition distinct_objects (w : World) : Prop :=
  forall d1 d2 m1 m2,
    _models w !! d1 = Some m1 -> _models w !! d2 = Some m2 ->
    oid m1 = oid m2 -> d1 = d2.

(** Both invariants of the cache together. *)
Definition sound_cache `{E : Extern} (w : World) : Prop := bound_cache w /\ distinct_objects w.

(** A history of calls. *)
Definition after_all `{E : Extern} (calls : list Call) (w : World) : World :=
  fold_left (fun w c => after c w) calls w.

Definition is_clear_cache (c : Call) : bool :=
match c with
| CallClearCache => true
| _ => false
end.

Definition is_generate (ev : Event) : bool :=
match ev with
| CallGenerate _ _ _ => true
| _ => false
end.

Definition is_write (ev : Event) : bool :=
match ev with
| FsWrite _ => true
| _ => false
end.

(** The HTTP status of a failure, if it is an [HTTPException]. *)
Definition http_status (e : exn) : option N :=
match e with
| HTTPException status _ => Some status
| _ => None
end.


(** An installation whose library cannot read the checkpoints. *)
Definition lab_broken : Extern := {|
  base_dir := lit "/app";
  mps_is_available := false;
  cuda_is_available := false;
  wall_clock := fun n => inject_Z (Z.of_nat n);
  md5_hexdigest := toy_digest;
  from_local := fun _ _ _ _ =>
    inl (RuntimeError (lit "PytorchStreamReader failed reading zip archive"));
  generate := fun _ _ _ _ _ => inr lab_wav;
  torchaudio_save_raises := fun _ _ _ _ => None
|}.

(** An installation whose model runs out of memory at every request. *)
Definition lab_exhausted : Extern := {|
  base_dir := lit "/app";
  mps_is_available := false;
  cuda_is_available := false;
  wall_clock := fun n => inject_Z (Z.of_nat n);
  md5_hexdigest := toy_digest;
  from_local := fun _ _ _ vocab =>
    if (vocab =? 2454)%Z then inr 24000%Z
    else inl (RuntimeError (lit "size mismatch for text_emb.weight"));
  generate := fun _ _ _ _ _ => inl (RuntimeError (lit "CUDA out of memory"));
  torchaudio_save_raises := fun _ _ _ _ => None
|}.


(** The libraries know nothing of HTTP: whatever they raise, it is not
    an [HTTPException]. *)
Definition libraries_raise_no_http `{E : Extern} : Prop :=
  (forall files p dev vocab e, from_local files p dev vocab = inl e -> http_status e = None)
  /\ (forall model files n text kwargs e,
        generate model files n text kwargs = inl e -> http_status e = None)
  /\ (forall files p audio rate e,
        torchaudio_save_raises files p audio rate = Some e -> http_status e = None).

(** A catalog that lists a dialect the service does not know and one
    whose model is not installed; the audio of the first sample is there. *)
Definition lab_sample : Sample :=
  MkSample (lit "sample1") greeting (lit "sample1.wav") (lit "greeting").

Definition lab_wide_catalog : gmap pystr (list Sample) :=
  <[ lit "french" := [lab_sample] ]> {[ lit "ksa" := [lab_sample] ]}.

Definition lab_wide : World :=
  initial_world
    (<[ lit "/app/training_samples/ksa/sample1.wav" := File ]>
     (<[ lit "/app/training_samples/metadata.json" := MetadataFile lab_wide_catalog ]> ∅)).

(** ** modal_api.py: the service as deployed on Modal *)



Section Modal.

Context `{E : Extern}.

(** [self.models], as [load_models] left it. *)
Variable models : gmap pystr ModelHandle.

(** The exception [torchaudio.save] raises when it writes to the
    buffer, if it does. *)
Variable save_to_buffer_raises : Tensor float32 -> Z -> option exn.

Definition modal_generate (text dialect : pystr) (params : SamplingParams)
    (reference_audio_path : option pystr) : M (Tensor float32 * Z * Q) :=
  log INFO "TTS Request: {dialect} - {text[:50]}..." [dialect; take 50 text] >>
  match models !! dialect with
  | None => raise (ValueError (lit "Unknown dialect: " ++ dialect))
  | Some model =>
      let* start_time := time_time in
      let* reference :=
        match reference_audio_path with
        | Some (c :: p) =>
            log INFO "Using reference audio: {reference_audio_path}" [c :: p] >>
            ret (Some (c :: p))
        | _ => ret None
        end in
      let* wav := model_generate model text (gen_kwargs params reference) in
      let* now := time_time in
      let inference_time := (now - start_time)%Q in
      match finalize_waveform wav with
      | None =>
          raise (RuntimeError (lit "max(): Expected reduction dim to be specified for input.numel() == 0."))
      | Some wav =>
          match save_to_buffer_raises wav (sr model) with
          | Some e => raise e
          | None =>
              let* samples := last_dim wav in
              let* audio_duration := py_div (inject_Z (Z.of_nat samples)) (inject_Z (sr model)) in
              let* _ := py_div audio_duration inference_time in
              log INFO "Generated {audio_duration:.2f}s audio in {inference_time:.2f}s (RTF: {rtf:.2f}x)" [] >>
              ret (wav, sr model, inference_time)
          end
      end
  end.


End Modal.


(** * Properties *)

(** ** Text normalisation *)

Section Text.

Lemma flush_push cur rest : flush cur rest = push (rev cur) rest.
Proof.
  destruct cur as [|c cur]; [reflexivity|]. simpl.
  destruct (rev cur ++ [c]) eqn:Hr; [|reflexivity].
  destruct (rev cur); discriminate.
Qed.

Lemma split_from_scan s : forall cur,
  split_from cur s = push (rev cur ++ fst (scan s)) (snd (scan s)).
Proof.
  induction s as [|c s IH]; intros cur; simpl.
  - rewrite app_nil_r. apply flush_push.
  - destruct (scan s) as [w rest] eqn:Hs. destruct (isspace c); simpl.
    + rewrite app_nil_r, flush_push. f_equal. apply (IH []).
    + rewrite IH. simpl. now rewrite <- app_assoc.
Qed.

Lemma split_scan s : split s = push (fst (scan s)) (snd (scan s)).
Proof. unfold split. now rewrite split_from_scan. Qed.

Lemma scan_words s : plain (fst (scan s)) /\ Forall word (snd (scan s)).
Proof.
  induction s as [|c s [IHw IHr]]; simpl.
  - split; constructor.
  - destruct (scan s) as [w rest]. simpl in *. destruct (isspace c) eqn:Hc; simpl.
    + split; [constructor|]. destruct w; simpl; [assumption|].
      constructor; [split; [discriminate|assumption]|assumption].
    + split; [constructor; assumption|assumption].
Qed.

Lemma scan_starts_with_space s :
  starts_with_space s = true -> fst (scan s) = [].
Proof.
  destruct s as [|c s]; simpl; [discriminate|].
  intros ->. now destruct (scan s).
Qed.

Lemma scan_starts_plain c s :
  isspace c = false -> fst (scan (c :: s)) = c :: fst (scan s).
Proof. simpl. intros ->. now destruct (scan s). Qed.

Lemma ends_with_space_cons c s :
  s <> [] -> ends_with_space (c :: s) = ends_with_space s.
Proof. destruct s; [congruence|reflexivity]. Qed.

Lemma scan_cons c s :
  scan (c :: s) =
  if isspace c then ([], push (fst (scan s)) (snd (scan s)))
  else (c :: fst (scan s), snd (scan s)).
Proof. simpl. now destruct (scan s). Qed.

Lemma collapse_scan s :
  collapse s = fst (scan s) ++ spaced (snd (scan s)) ++ tail_space s.
Proof.
  induction s as [|c s IH]; [reflexivity|].
  cbn [collapse]. rewrite scan_cons. destruct (isspace c) eqn:Hc; cbn [fst snd].
  - destruct (starts_with_space s) eqn:Hs.
    + rewrite IH, (scan_starts_with_space s Hs). cbn [push app].
      unfold tail_space. rewrite ends_with_space_cons; [reflexivity|].
      destruct s; [discriminate|congruence].
    + rewrite IH. destruct s as [|c' s].
      * unfold tail_space. simpl. now rewrite Hc.
      * simpl in Hs. rewrite (scan_starts_plain c' s Hs). cbn [push].
        unfold spaced, tail_space. cbn [List.map concat ends_with_space].
        rewrite <- !app_assoc. reflexivity.
  - rewrite IH. unfold tail_space.
    destruct s as [|c' s]; [simpl; now rewrite Hc|reflexivity].
Qed.

Lemma join_spaced x l : join [SP] (x :: l) = x ++ spaced l.
Proof.
  revert x. induction l as [|y l IH]; intros x.
  - simpl. now rewrite app_nil_r.
  - change (join [SP] (x :: y :: l)) with (x ++ [SP] ++ join [SP] (y :: l)).
    rewrite IH. reflexivity.
Qed.

Lemma rstrip_tidy s : tidy_end s -> rstrip s = s.
Proof.
  unfold tidy_end, rstrip. intros H. destruct (rev s) as [|c r] eqn:Hr.
  - apply (f_equal (@rev N)) in Hr. rewrite rev_involutive in Hr. now subst.
  - cbn [lstrip]. rewrite H, <- Hr. apply rev_involutive.
Qed.

Lemma rstrip_tail_space s t : rstrip (s ++ tail_space t) = rstrip s.
Proof.
  unfold tail_space. destruct (ends_with_space t); [|now rewrite app_nil_r].
  unfold rstrip. rewrite rev_app_distr. reflexivity.
Qed.

Lemma tidy_end_app s t : t <> [] -> tidy_end t -> tidy_end (s ++ t).
Proof.
  unfold tidy_end. rewrite rev_app_distr. intros Hne H.
  destruct (rev t) as [|c r] eqn:Hr; [|exact H].
  apply (f_equal (@rev N)) in Hr. rewrite rev_involutive in Hr. contradiction.
Qed.

Lemma tidy_end_plain w : plain w -> tidy_end w.
Proof.
  unfold plain, tidy_end. intros H. destruct (rev w) as [|c r] eqn:Hr; [exact I|].
  rewrite Forall_forall in H. apply H. apply list_elem_of_In, in_rev.
  rewrite Hr. now left.
Qed.

Lemma tidy_end_spaced l : Forall word l -> tidy_end (spaced l).
Proof.
  induction 1 as [|x l [Hne Hx] Hl IH]; [exact I|].
  change (spaced (x :: l)) with ((SP :: x) ++ spaced l).
  destruct l as [|y l].
  - change (spaced []) with (@nil N). rewrite app_nil_r.
    apply (tidy_end_app [SP] x Hne). now apply tidy_end_plain.
  - apply tidy_end_app; [discriminate|exact IH].
Qed.

Lemma lstrip_plain w s : w <> [] -> plain w -> lstrip (w ++ s) = w ++ s.
Proof.
  destruct w as [|c w]; [congruence|]. intros _ H. inversion H as [|? ? Hc _]; subst.
  simpl. now rewrite Hc.
Qed.

Lemma trim_words w l t :
  plain w -> Forall word l ->
  trim (w ++ spaced l ++ tail_space t) = join [SP] (push w l).
Proof.
  intros Hw Hl. unfold trim. destruct w as [|c w].
  - cbn [app push]. destruct l as [|x l].
    + cbn [spaced List.map concat app]. unfold tail_space.
      destruct (ends_with_space t); reflexivity.
    + inversion Hl as [|? ? [Hne Hx] Hl']; subst.
      change (spaced (x :: l)) with (SP :: x ++ spaced l).
      change (lstrip ((SP :: x ++ spaced l) ++ tail_space t))
        with (lstrip ((x ++ spaced l) ++ tail_space t)).
      rewrite <- app_assoc, lstrip_plain by assumption.
      rewrite app_assoc, rstrip_tail_space, join_spaced.
      apply rstrip_tidy. destruct l as [|y l].
      * change (spaced []) with (@nil N). rewrite app_nil_r. now apply tidy_end_plain.
      * apply tidy_end_app; [discriminate|]. now apply tidy_end_spaced.
  - cbn [push]. rewrite lstrip_plain by (assumption || discriminate).
    rewrite app_assoc, rstrip_tail_space, join_spaced.
    apply rstrip_tidy. destruct l as [|y l].
    + change (spaced []) with (@nil N). rewrite app_nil_r. now apply tidy_end_plain.
    + apply tidy_end_app; [discriminate|]. now apply tidy_end_spaced.
Qed.

Lemma join_split_normalize s : join [SP] (split s) = normalize s.
Proof.
  unfold normalize. rewrite split_scan, collapse_scan.
  destruct (scan_words s) as [Hw Hl]. symmetry. now apply trim_words.
Qed.

Lemma split_blank s : Forall (fun c => isspace c = true) s -> split s = [].
Proof.
  unfold split. induction 1 as [|c s Hc _ IH]; [reflexivity|].
  simpl. now rewrite Hc.
Qed.

End Text.

Section Visible.

Lemma visible_app s t : visible (s ++ t) = visible s ++ visible t.
Proof. apply List.filter_app. Qed.

Lemma visible_plain w : plain w -> visible w = w.
Proof.
  induction 1 as [|c w Hc _ IH]; [reflexivity|].
  unfold visible in *. cbn [List.filter]. rewrite Hc. cbn [negb]. now rewrite IH.
Qed.

Lemma visible_scan s : visible s = fst (scan s) ++ concat (snd (scan s)).
Proof.
  induction s as [|c s IH]; [reflexivity|].
  rewrite scan_cons. unfold visible in *. cbn [List.filter].
  destruct (isspace c); cbn [negb fst snd].
  - rewrite IH. now destruct (fst (scan s)).
  - now rewrite IH.
Qed.

Lemma visible_spaced l : Forall word l -> visible (spaced l) = concat l.
Proof.
  induction 1 as [|x l [_ Hx] _ IH]; [reflexivity|].
  change (spaced (x :: l)) with ([SP] ++ x ++ spaced l).
  rewrite !visible_app, IH, (visible_plain x Hx). reflexivity.
Qed.

Lemma visible_join w l :
  plain w -> Forall word l -> visible (join [SP] (push w l)) = w ++ concat l.
Proof.
  intros Hw Hl. destruct w as [|c w]; cbn [push].
  - destruct l as [|x l]; [reflexivity|]. inversion Hl as [|? ? [_ Hx] Hl']; subst.
    rewrite join_spaced, visible_app, (visible_plain x Hx), visible_spaced by assumption.
    reflexivity.
  - rewrite join_spaced, visible_app, (visible_plain _ Hw), visible_spaced by assumption.
    reflexivity.
Qed.

Lemma preprocess_text_visible text : visible (preprocess_text text) = visible text.
Proof.
  unfold preprocess_text. rewrite split_scan, (visible_scan text).
  destruct (scan_words text) as [Hw Hl]. now apply visible_join.
Qed.

End Visible.

(** ** Reasoning about runs *)

Lemma run_eta {A} (r : Run A) : r = MkRun (out r) (post r) (emitted r).
Proof. now destruct r. Qed.

Lemma wp_bind {A B} (m : M A) (k : A -> M B) w (Q : Run B -> Prop) :
  wp m w (fun r =>
    match out r with
    | inl e => Q (MkRun (inl e) (post r) (emitted r))
    | inr a => wp (k a) (post r) (fun r' => Q (prepend (emitted r) r'))
    end) ->
  wp (bind m k) w Q.
Proof.
  unfold wp, bind, prepend. destruct (m w) as [[e|a] w' evs]; cbn; [easy|].
  now destruct (k a w').
Qed.

Lemma wp_try {A} (m : M A) (h : exn -> M A) w (Q : Run A -> Prop) :
  wp m w (fun r =>
    match out r with
    | inl e => wp (h e) (post r) (fun r' => Q (prepend (emitted r) r'))
    | inr a => Q (MkRun (inr a) (post r) (emitted r))
    end) ->
  wp (try_except m h) w Q.
Proof.
  unfold wp, try_except, prepend. destruct (m w) as [[e|a] w' evs]; cbn; [|easy].
  now destruct (h e w').
Qed.

Lemma wp_run {A} (m : M A) w r (Q : Run A -> Prop) : m w = r -> Q r -> wp m w Q.
Proof. unfold wp. now intros ->. Qed.

Ltac wp_simpl :=
  cbn [ret raise gets modify emit log
       out post emitted prepend patched loaded
       fs _models T3Config_multilingual next_oid ticks draws app negb
       without_sample_reference without_reference_file
       cmp_dialect cmp_sample_id cmp_params use_sample_as_reference
       req_text req_dialect req_params reference_audio_file].

Ltac wp_prim := unfold wp at 1; wp_simpl.

Ltac wp_known :=
  repeat match goal with
  | H : _ = true |- _ => progress rewrite H
  | H : _ = false |- _ => progress rewrite H
  | H : _ = None |- _ => progress rewrite H
  | H : _ = Some _ |- _ => progress rewrite H
  | H : _ = inl _ |- _ => progress rewrite H
  | H : _ = inr _ |- _ => progress rewrite H
  end.

Ltac wp_known_run :=
  match goal with
  | H : ?m ?w = _ |- wp ?m ?w _ => apply (wp_run _ _ _ _ H)
  end.

Ltac wp_step :=
  first
  [ wp_known_run
  | lazymatch goal with
    | |- wp (bind _ _) _ _ => apply wp_bind
    | |- wp (try_except _ _) _ _ => apply wp_try
    | |- wp (ret _) _ _ => wp_prim
    | |- wp (raise _) _ _ => wp_prim
    | |- wp (gets _) _ _ => wp_prim
    | |- wp (modify _) _ _ => wp_prim
    | |- wp (emit _) _ _ => wp_prim
    | |- wp (log _ _ _) _ _ => wp_prim
    | |- wp (path_exists _) _ _ => unfold path_exists at 1
    | |- wp time_time _ _ => unfold time_time at 1
    | |- wp (model_generate _ _ _) _ _ => unfold model_generate at 1
    | |- wp (torchaudio_save _ _ _) _ _ => unfold torchaudio_save at 1
    | |- wp (_save_audio _ _ _) _ _ => unfold _save_audio at 1
    | |- wp (py_div _ _) _ _ => unfold py_div at 1
    | |- wp (last_dim _) _ _ => unfold last_dim at 1
    | |- wp load_metadata _ _ => unfold load_metadata at 1
    | |- wp (path_is_symlink _) _ _ => unfold path_is_symlink at 1
    | |- wp (patch_T3Config _) _ _ => unfold patch_T3Config at 1
    | |- wp (cache_put _ _) _ _ => unfold cache_put at 1
    | |- wp (if ?b then _ else _) _ _ => first [ progress wp_known | destruct b eqn:? ]
    | |- wp (match ?x with _ => _ end) _ _ => first [ progress wp_known | destruct x eqn:? ]
    | |- match ?x with _ => _ end => first [ progress wp_known | destruct x eqn:? ]
    end ]; wp_simpl.

(** Stop at the code that follows a successful [model.generate]. *)
Ltac wp_to_tail :=
  repeat lazymatch goal with
         | H : generate _ _ _ _ _ = inr _ |- wp (bind time_time _) _ _ => fail
         | _ => wp_step
         end.

(** Name the run of the code at hand instead of stepping through it. *)
Ltac wp_cut :=
  lazymatch goal with
  | |- wp ?m ?w _ =>
      let H := fresh "Hcut" in
      destruct (m w) as [? ? ?] eqn:H; apply (wp_run _ _ _ _ H); wp_simpl
  end.

Ltac wp_start :=
  lazymatch goal with
  | |- ?m ?w = ?r =>
      rewrite (run_eta (m w));
      change (wp m w (fun r' => MkRun (out r') (post r') (emitted r') = r))
  end.

(** Membership of an event in the events of a run. *)
Ltac find_event := cbn [In]; rewrite ?in_app_iff; cbn [In]; solve [auto 25].



Lemma preserves_bind {A B} P (m : M A) (k : A -> M B) :
  preserves P m -> (forall a, preserves P (k a)) -> preserves P (bind m k).
Proof.
  intros Hm Hk w Hw. unfold bind. specialize (Hm w Hw).
  destruct (m w) as [[e|a] w' evs]; cbn in *; [assumption|].
  specialize (Hk a w' Hm). now destruct (k a w').
Qed.

Lemma preserves_try {A} P (m : M A) (h : exn -> M A) :
  preserves P m -> (forall e, preserves P (h e)) -> preserves P (try_except m h).
Proof.
  intros Hm Hh w Hw. unfold try_except. specialize (Hm w Hw).
  destruct (m w) as [[e|a] w' evs]; cbn in *; [|assumption].
  specialize (Hh e w' Hm). now destruct (h e w').
Qed.

Lemma preserves_pure {A} P (m : M A) :
  (forall w, post (m w) = w) -> preserves P m.
Proof. intros H w Hw. now rewrite H. Qed.

Lemma preserves_for_each {A} P (f : A -> M unit) l :
  (forall a, preserves P (f a)) -> preserves P (for_each f l).
Proof.
  intros Hf. induction l as [|a l IH]; cbn [for_each].
  - now apply preserves_pure.
  - apply preserves_bind; [apply Hf|intros _; exact IH].
Qed.

Lemma emits_bind {A B} P (m : M A) (k : A -> M B) :
  emits P m -> (forall a, emits P (k a)) -> emits P (bind m k).
Proof.
  intros Hm Hk w. unfold bind. specialize (Hm w).
  destruct (m w) as [[e|a] w' evs]; cbn in *; [assumption|].
  specialize (Hk a w'). destruct (k a w'). cbn in *. apply Forall_app. now split.
Qed.

Lemma emits_try {A} P (m : M A) (h : exn -> M A) :
  emits P m -> (forall e, emits P (h e)) -> emits P (try_except m h).
Proof.
  intros Hm Hh w. unfold try_except. specialize (Hm w).
  destruct (m w) as [[e|a] w' evs]; cbn in *; [|assumption].
  specialize (Hh e w'). destruct (h e w'). cbn in *. apply Forall_app. now split.
Qed.

Lemma emits_silent {A} P (m : M A) :
  (forall w, emitted (m w) = []) -> emits P m.
Proof. intros H w. rewrite H. constructor. Qed.

Lemma emits_emit P ev : P ev -> emits P (emit ev).
Proof. intros H w. cbn. now constructor. Qed.

Lemma emits_for_each {A} P (f : A -> M unit) l :
  (forall a, emits P (f a)) -> emits P (for_each f l).
Proof.
  intros Hf. induction l as [|a l IH]; cbn [for_each].
  - now apply emits_silent.
  - apply emits_bind; [apply Hf|intros _; exact IH].
Qed.

(** One step of a proof that the code at hand keeps an invariant, or
    emits only events of one kind; sub-calls are closed by the lemmas in
    the hint database [services]. *)
Create HintDb services.

Ltac compositional :=
  repeat first
    [ solve [auto with services]
    | simple apply preserves_for_each; intro
    | simple apply emits_for_each; intro
    | simple apply preserves_bind; [|intro]
    | simple apply preserves_try; [|intro]
    | simple apply emits_bind; [|intro]
    | simple apply emits_try; [|intro]
    | simple apply emits_emit; solve [cbn; auto]
    | solve [simple apply preserves_pure; reflexivity]
    | solve [simple apply emits_silent; reflexivity]
    | match goal with
      | |- preserves _ (modify _) => intros ? ?; assumption
      | |- preserves _ (time_time) => unfold time_time
      | |- emits _ (time_time) => unfold time_time
      | |- preserves _ (model_generate _ _ _) => unfold model_generate
      | |- emits _ (model_generate _ _ _) => unfold model_generate
      | |- preserves _ (torchaudio_save _ _ _) => unfold torchaudio_save
      | |- emits _ (torchaudio_save _ _ _) => unfold torchaudio_save
      | |- preserves _ (_save_audio _ _ _) => unfold _save_audio
      | |- emits _ (_save_audio _ _ _) => unfold _save_audio
      | |- preserves _ (py_div _ _) => unfold py_div
      | |- emits _ (py_div _ _) => unfold py_div
      | |- preserves _ (last_dim _) => unfold last_dim
      | |- emits _ (last_dim _) => unfold last_dim
      | |- preserves _ (load_metadata) => unfold load_metadata
      | |- emits _ (load_metadata) => unfold load_metadata
      | |- preserves _ (log _ _ _) => unfold log
      | |- emits _ (log _ _ _) => unfold log
      | |- preserves _ (path_exists _) => unfold path_exists
      | |- emits _ (path_exists _) => unfold path_exists
      | |- preserves _ (path_is_symlink _) => unfold path_is_symlink
      | |- emits _ (path_is_symlink _) => unfold path_is_symlink
      | |- preserves _ (if ?b then _ else _) => destruct b
      | |- emits _ (if ?b then _ else _) => destruct b
      | |- preserves _ (match ?x with _ => _ end) => destruct x
      | |- emits _ (match ?x with _ => _ end) => destruct x
      end ].

Section Registry.
Context `{E : Extern}.

Lemma report_file_run p entry w :
  exists evs, report_file p entry w = MkRun (inr tt) w evs /\ quiet evs.
Proof.
  assert (wp (report_file p entry) w (fun r => out r = inr tt /\ post r = w /\ quiet (emitted r))) as H.
  { unfold report_file. repeat wp_step; repeat split; repeat constructor. }
  unfold wp in H. destruct (report_file p entry w) as [o w' evs]. cbn in H.
  destruct H as (-> & -> & H). eauto.
Qed.

Lemma report_files_run p entries w :
  exists evs, for_each (report_file p) entries w = MkRun (inr tt) w evs /\ quiet evs.
Proof.
  induction entries as [|entry entries [evs' [IH Hq']]]; cbn [for_each].
  - exists []. split; [reflexivity|constructor].
  - destruct (report_file_run p entry w) as [evs [Hr Hq]].
    unfold bind. rewrite Hr, IH. eexists. split; [reflexivity|].
    apply Forall_app. split; assumption.
Qed.

Lemma load_model_hit d w model :
  _models w !! d = Some model ->
  load_model d w = MkRun (inr model) w [Log INFO "Model for {dialect} already loaded" [d]].
Proof. intros H. wp_start. unfold load_model. repeat wp_step. reflexivity. Qed.

Lemma load_model_absent d w :
  _models w !! d = None -> exists_in (fs w) (models_dir // d) = false ->
  load_model d w = MkRun (inl (FileNotFoundError (not_found_message d))) w
                         [FsExists (models_dir // d)].
Proof. intros H Hp. wp_start. unfold load_model. repeat wp_step. reflexivity. Qed.

Lemma load_model_present d w :
  _models w !! d = None -> exists_in (fs w) (models_dir // d) = true ->
  exists evs, quiet evs /\
    match from_local (fs w) (models_dir // d) _device 2454 with
    | inl e =>
        load_model d w =
        MkRun (inl e) (patched w)
          (evs ++ [CallFromLocal (models_dir // d) _device 2454;
                   Log ERROR "Error loading {dialect} from HuggingFace: {str(e)}" [d; str_exn e];
                   Log ERROR "{traceback.format_exc()}" []])
    | inr rate =>
        let model := MkModel (next_oid w) (models_dir // d) _device 2454 rate in
        load_model d w =
        MkRun (inr model) (loaded d model w)
          (evs ++ [CallFromLocal (models_dir // d) _device 2454;
                   Log INFO "✅ Successfully loaded {dialect} model" [d];
                   Log INFO "Model sample rate: {model.sr} Hz" []])
    end.
Proof.
  intros H Hp.
  destruct (report_files_run (models_dir // d) model_files (patched w)) as [evs [Hr Hq]].
  exists ([FsExists (models_dir // d);
           Log INFO "Loading {dialect} model from local path: {local_model_path}..." [d; models_dir // d];
           Log INFO "Using device: {self._device}" [device_name _device];
           Log INFO "PATCH APPLIED: T3Config.multilingual patched to use vocab size 2454" [];
           Log INFO "============================================================" [];
           Log INFO "LOADING FINE-TUNED MODEL FILES:" []]
          ++ evs
          ++ [Log INFO "============================================================" [];
              Log INFO "NOTE: These are YOUR FINE-TUNED models from Genarabia-ai" [];
              Log INFO "      NOT the pretrained ResembleAI/chatterbox base model" [];
              Log INFO "============================================================" []]).
  split.
  - repeat (apply Forall_app; split); try assumption; repeat constructor.
  - destruct (from_local _ _ _ _) as [e|rate] eqn:Hl; cbn zeta; wp_start;
      unfold load_model, ChatterboxMultilingualTTS_from_local;
      repeat wp_step; cbn [app]; rewrite <- ?app_assoc; reflexivity.
Qed.

Lemma get_model_hit d w model :
  _models w !! d = Some model -> get_model d w = MkRun (inr model) w [].
Proof. intros H. wp_start. unfold get_model. repeat wp_step. reflexivity. Qed.

Lemma get_model_miss d w :
  _models w !! d = None -> get_model d w = load_model d w.
Proof.
  intros H. rewrite (run_eta (load_model d w)). wp_start. unfold get_model.
  do 3 wp_step. unfold wp. reflexivity.
Qed.

(** The three ways a call of [load_model] can go. *)
Lemma load_model_cases d w :
  (exists model, _models w !! d = Some model
     /\ load_model d w = MkRun (inr model) w [Log INFO "Model for {dialect} already loaded" [d]])
  \/ (_models w !! d = None /\ exists_in (fs w) (models_dir // d) = false
      /\ load_model d w = MkRun (inl (FileNotFoundError (not_found_message d))) w
                                [FsExists (models_dir // d)])
  \/ (_models w !! d = None /\ exists_in (fs w) (models_dir // d) = true
      /\ exists evs tail, quiet evs /\ Forall (fun ev => is_log ev = true) tail /\
         ((exists e, out (load_model d w) = inl e /\ post (load_model d w) = patched w)
          \/ (exists rate,
                let model := MkModel (next_oid w) (models_dir // d) _device 2454 rate in
                out (load_model d w) = inr model /\ post (load_model d w) = loaded d model w))
         /\ emitted (load_model d w)
            = evs ++ CallFromLocal (models_dir // d) _device 2454 :: tail).
Proof.
  destruct (_models w !! d) as [model|] eqn:Hc.
  - left. exists model. split; [reflexivity|]. now apply load_model_hit.
  - right. destruct (exists_in (fs w) (models_dir // d)) eqn:Hp.
    + right. repeat split.
      destruct (load_model_present d w Hc Hp) as [evs [Hq Hrun]].
      destruct (from_local _ _ _ _) as [e|rate]; cbn zeta in Hrun; rewrite Hrun;
        eexists evs, _; (split; [assumption|]); (split; [|split; [|reflexivity]]).
      * repeat constructor.
      * left. eauto.
      * repeat constructor.
      * right. exists rate. split; reflexivity.
    + left. repeat split. now apply load_model_absent.
Qed.

Lemma load_model_fs d w : fs (post (load_model d w)) = fs w.
Proof.
  destruct (load_model_cases d w) as [(model & _ & ->)|[(_ & _ & ->)|(_ & _ & evs & tail & _ & _ & H & _)]];
    try reflexivity.
  destruct H as [(e & _ & ->)|(rate & _ & ->)]; reflexivity.
Qed.

Lemma patched_cache_loaded d model w :
  patched_cache w -> text_tokens_dict_size model = FINE_TUNED_VOCAB ->
  patched_cache (loaded d model w).
Proof.
  intros Hw Hm d' model'. cbn. rewrite lookup_insert. case_decide.
  - now intros [= <-].
  - apply Hw.
Qed.

Lemma load_model_patched_cache d : preserves patched_cache (load_model d).
Proof.
  intros w Hw.
  destruct (load_model_cases d w) as [(model & _ & ->)|[(_ & _ & ->)|(_ & _ & evs & tail & _ & _ & H & _)]];
    try assumption.
  destruct H as [(e & _ & ->)|(rate & _ & ->)]; [exact Hw|].
  now apply patched_cache_loaded.
Qed.

Lemma get_model_cases d w :
  (exists model, _models w !! d = Some model /\ get_model d w = MkRun (inr model) w [])
  \/ (_models w !! d = None /\ get_model d w = load_model d w).
Proof.
  destruct (_models w !! d) as [model|] eqn:Hc.
  - left. exists model. split; [reflexivity|]. now apply get_model_hit.
  - right. split; [reflexivity|]. now apply get_model_miss.
Qed.

Lemma get_model_fs d w : fs (post (get_model d w)) = fs w.
Proof.
  destruct (get_model_cases d w) as [(model & _ & ->)|(_ & ->)]; [reflexivity|].
  apply load_model_fs.
Qed.

Lemma get_model_patched_cache d : preserves patched_cache (get_model d).
Proof.
  intros w Hw. destruct (get_model_cases d w) as [(model & _ & ->)|(_ & ->)]; [exact Hw|].
  now apply load_model_patched_cache.
Qed.

#[local] Hint Resolve load_model_patched_cache get_model_patched_cache : services.

Lemma load_all_models_patched_cache : preserves patched_cache load_all_models.
Proof. unfold load_all_models. compositional. Qed.

Lemma clear_cache_patched_cache : preserves patched_cache clear_cache.
Proof.
  unfold clear_cache. compositional. intros w _ d model. cbn. now rewrite lookup_empty.
Qed.

End Registry.

#[export] Hint Resolve load_model_patched_cache get_model_patched_cache : services.

Section Orchestrator.
Context `{E : Extern}.

Lemma generate_audio_patched_cache text d params r o :
  preserves patched_cache (generate_audio text d params r o).
Proof. unfold generate_audio. compositional. Qed.

Lemma quiet_generates P evs : quiet evs -> Forall (generates P) evs.
Proof. intros H. eapply Forall_impl; [exact H|]. now intros []. Qed.

Lemma load_model_generates P d : emits (generates P) (load_model d).
Proof.
  intros w.
  destruct (load_model_cases d w) as [(model & _ & ->)|[(_ & _ & ->)|(_ & _ & evs & tail & Hq & Ht & _ & ->)]].
  - repeat constructor.
  - repeat constructor.
  - apply Forall_app. split; [now apply quiet_generates|]. constructor; [exact I|].
    eapply Forall_impl; [exact Ht|]. now intros [].
Qed.

Lemma get_model_generates P d : emits (generates P) (get_model d).
Proof.
  intros w. destruct (get_model_cases d w) as [(model & _ & ->)|(_ & ->)]; [constructor|].
  apply load_model_generates.
Qed.

#[local] Hint Resolve get_model_generates : services.

Lemma generate_audio_hands_over text d params r o :
  emits (generates (fun t _ => t = preprocess_text text)) (generate_audio text d params r o).
Proof. unfold generate_audio. compositional. Qed.

Lemma generate_audio_invalid text d params r o w :
  d ∉ valid_dialects -> rejects_dialect (generate_audio text d params r o w) w.
Proof.
  intros Hd. change (wp (generate_audio text d params r o) w (fun r => rejects_dialect r w)).
  unfold generate_audio. rewrite (bool_decide_eq_false_2 _ Hd).
  repeat wp_step; (split; [eauto|split; reflexivity]).
Qed.

Lemma generate_audio_default_path text d params r w p t :
  out (generate_audio text d params r None w) = inr (p, t) ->
  default_output_path text d = Some p
  /\ exists audio rate, fs (post (generate_audio text d params r None w)) !! p
                        = Some (WavFile audio rate).
Proof.
  change (wp (generate_audio text d params r None) w (fun r' =>
    out r' = inr (p, t) ->
    default_output_path text d = Some p
    /\ exists audio rate, fs (post r') !! p = Some (WavFile audio rate))).
  destruct (get_model d w) as [o1 w1 ev1] eqn:Hg.
  unfold generate_audio. repeat wp_step; try discriminate.
  all: intros [= <- <-]; (split; [reflexivity|]); eexists _, _; apply lookup_insert_eq.
Qed.

Lemma generate_audio_attempts text d params r o w model w1 ev1 :
  d ∈ valid_dialects ->
  get_model d w = MkRun (inr model) w1 ev1 ->
  In (CallGenerate (oid model) (preprocess_text text)
        (gen_kwargs params (effective_reference (fs w) r)))
     (emitted (generate_audio text d params r o w)).
Proof.
  intros Hd Hg.
  assert (fs w1 = fs w) as Hfs by (rewrite <- (get_model_fs d w), Hg; reflexivity).
  rewrite <- Hfs.
  change (wp (generate_audio text d params r o) w (fun r' =>
    In (CallGenerate (oid model) (preprocess_text text)
          (gen_kwargs params (effective_reference (fs w1) r))) (emitted r'))).
  unfold generate_audio, effective_reference. rewrite (bool_decide_eq_true_2 _ Hd).
  wp_to_tail; try wp_cut; repeat wp_step; find_event.
Qed.

Lemma generate_audio_load_error text d params r o w e :
  d ∈ valid_dialects ->
  out (get_model d w) = inl e ->
  out (generate_audio text d params r o w) = inl e.
Proof.
  intros Hd Hg. destruct (get_model d w) as [o1 w1 ev1] eqn:Hg'. cbn in Hg. subst o1.
  change (wp (generate_audio text d params r o) w (fun r' => out r' = inl e)).
  unfold generate_audio. rewrite (bool_decide_eq_true_2 _ Hd).
  repeat wp_step; reflexivity.
Qed.


End Orchestrator.

#[export] Hint Resolve generate_audio_patched_cache get_model_generates : services.

(** ** The endpoints *)

Section Endpoints.
Context `{E : Extern}.


Lemma generate_tts_patched_cache request : preserves patched_cache (generate_tts request).
Proof. unfold generate_tts. compositional. Qed.

Lemma compare_with_sample_patched_cache request :
  preserves patched_cache (compare_with_sample request).
Proof. unfold compare_with_sample. compositional. Qed.

Lemma reachable_patched_cache w : reachable w -> patched_cache w.
Proof.
  induction 1 as [files|c w _ IH|files w _ IH].
  - intros d model. cbn. now rewrite lookup_empty.
  - destruct c; cbn [after].
    + now apply load_model_patched_cache.
    + now apply get_model_patched_cache.
    + now apply load_all_models_patched_cache.
    + now apply clear_cache_patched_cache.
    + now apply generate_audio_patched_cache.
    + now apply generate_tts_patched_cache.
    + now apply compare_with_sample_patched_cache.
  - exact IH.
Qed.



End Endpoints.

(** ** The audio finalizer *)

Section Finalizer.

Local Open Scope Q_scope.







Lemma finalize_waveform_data {F} `{SampleOps F} (audio : Tensor F) :
  finalize_waveform audio =
  match torch_max (List.map s_abs (data audio)) with
  | None => None
  | Some peak =>
      Some (MkTensor (if Nat.eqb (dim audio) 1 then 1%nat :: shape audio else shape audio)
                     (List.map (fun x => s_div x peak) (data audio)))
  end.
Proof.
  unfold finalize_waveform, peak_normalize. destruct (Nat.eqb (dim audio) 1); reflexivity.
Qed.



Lemma f32_max_zero a b : is_zero a -> is_zero b -> is_zero (f32_max a b).
Proof. destruct a, b; cbn; try contradiction; auto. Qed.

Lemma fold_f32_max_zero xs : forall a,
  is_zero a -> Forall is_zero xs -> is_zero (fold_left f32_max xs a).
Proof.
  induction xs as [|x xs IH]; intros a Ha Hxs; cbn [fold_left]; [assumption|].
  inversion Hxs; subst. apply IH; [now apply f32_max_zero|assumption].
Qed.

Lemma f32_abs_zero x : is_zero x -> is_zero (SFabs x).
Proof. now destruct x. Qed.

Lemma f32_div_zero_zero x peak :
  is_zero x -> is_zero peak -> SFdiv 24 128 x peak = S754_nan.
Proof. destruct x, peak; cbn; try contradiction; reflexivity. Qed.

Lemma torch_max_zero (xs : list float32) :
  xs <> [] -> Forall is_zero xs ->
  exists peak, torch_max (List.map SFabs xs) = Some peak /\ is_zero peak.
Proof.
  destruct xs as [|x xs]; [congruence|]. intros _ Hz. inversion Hz; subst.
  eexists. split; [reflexivity|]. apply fold_f32_max_zero; [now apply f32_abs_zero|].
  apply Forall_forall. intros y Hy. apply list_elem_of_In, in_map_iff in Hy.
  destruct Hy as (z & <- & Hz'). apply f32_abs_zero.
  rewrite Forall_forall in H2. now apply H2, list_elem_of_In.
Qed.

Lemma silent_waveform_all_nan (audio : Tensor float32) :
  data audio <> [] -> Forall is_zero (data audio) ->
  exists out, finalize_waveform audio = Some out
    /\ length (data out) = length (data audio)
    /\ Forall (fun y => f32_is_nan y = true) (data out).
Proof.
  intros Hne Hz. rewrite finalize_waveform_data. cbn [s_abs s_div s_max float32_ops].
  destruct (torch_max_zero _ Hne Hz) as (peak & -> & Hpeak).
  eexists. split; [reflexivity|]. cbn [data]. split; [apply length_map|].
  apply Forall_forall. intros y Hy. apply list_elem_of_In, in_map_iff in Hy.
  destruct Hy as (x & <- & Hx). rewrite f32_div_zero_zero; [reflexivity| |assumption].
  rewrite Forall_forall in Hz. now apply Hz, list_elem_of_In.
Qed.

End Finalizer.

(** ** The cache and the disk *)

Section Disk.
Context `{E : Extern}.

Lemma stat_at_write (fuel : nat) (files : FS) (p : Path) audio rate (q : Path) :
  is_Some (stat_at fuel files q) ->
  is_Some (stat_at fuel (<[p := WavFile audio rate]> files) q).
Proof.
  revert q. induction fuel as [|fuel IH]; intros q; cbn [stat_at]; rewrite lookup_insert;
    case_decide; subst; try (intros _; eexists; reflexivity).
  - exact id.
  - destruct (files !! q) as [[]|]; try exact id. apply IH.
Qed.

Lemma exists_in_write (files : FS) (p : Path) audio rate (q : Path) :
  exists_in files q = true -> exists_in (<[p := WavFile audio rate]> files) q = true.
Proof.
  unfold exists_in. intros H. apply bool_decide_eq_true in H.
  apply bool_decide_eq_true. now apply stat_at_write.
Qed.

Lemma torchaudio_save_cache_on_disk p audio rate :
  preserves cache_on_disk (torchaudio_save p audio rate).
Proof.
  unfold torchaudio_save. compositional.
  intros w Hw d model Hc. cbn in *. apply exists_in_write. now apply (Hw d model).
Qed.

Lemma load_model_cache_on_disk d : preserves cache_on_disk (load_model d).
Proof.
  intros w Hw.
  destruct (load_model_cases d w)
    as [(m' & _ & ->)|[(_ & _ & ->)|(_ & Hp & evs & tail & _ & _ & Hend & _)]];
    try assumption.
  destruct Hend as [(e & _ & ->)|(rate & _ & ->)]; [exact Hw|].
  intros d' model'. cbn. rewrite lookup_insert. case_decide; [now subst|]. apply Hw.
Qed.

Lemma get_model_cache_on_disk d : preserves cache_on_disk (get_model d).
Proof.
  intros w Hw. destruct (get_model_cases d w) as [(model & _ & ->)|(_ & ->)]; [exact Hw|].
  now apply load_model_cache_on_disk.
Qed.

#[local] Hint Resolve torchaudio_save_cache_on_disk load_model_cache_on_disk
  get_model_cache_on_disk : services.

Lemma generate_audio_cache_on_disk text d params r o :
  preserves cache_on_disk (generate_audio text d params r o).
Proof. unfold generate_audio. compositional. Qed.

#[local] Hint Resolve generate_audio_cache_on_disk : services.

Lemma load_all_models_cache_on_disk : preserves cache_on_disk load_all_models.
Proof. unfold load_all_models. compositional. Qed.

Lemma generate_tts_cache_on_disk request : preserves cache_on_disk (generate_tts request).
Proof. unfold generate_tts. compositional. Qed.

Lemma compare_with_sample_cache_on_disk request :
  preserves cache_on_disk (compare_with_sample request).
Proof. unfold compare_with_sample. compositional. Qed.

Lemma undisturbed_cache_on_disk w : undisturbed w -> cache_on_disk w.
Proof.
  induction 1 as [files|c w _ IH].
  - intros d model. cbn. now rewrite lookup_empty.
  - destruct c; cbn [after].
    + now apply load_model_cache_on_disk.
    + now apply get_model_cache_on_disk.
    + now apply load_all_models_cache_on_disk.
    + intros d model. cbn. now rewrite lookup_empty.
    + now apply generate_audio_cache_on_disk.
    + now apply generate_tts_cache_on_disk.
    + now apply compare_with_sample_cache_on_disk.
Qed.

(** In a process whose files nobody else touches, a dialect whose
    directory is absent is not in the cache. *)
Lemma absent_directory_not_cached w d :
  undisturbed w -> exists_in (fs w) (models_dir // d) = false -> _models w !! d = None.
Proof.
  intros Hw Hp. apply undisturbed_cache_on_disk in Hw.
  destruct (_models w !! d) as [model|] eqn:Hc; [|reflexivity].
  rewrite (Hw d model Hc) in Hp. discriminate.
Qed.

End Disk.

(** * The claims of the design document *)

(** C1. Every model the registry instantiates is built under the
    fine-tuned vocabulary of 2454 entries: in any state the process can
    reach, a handle that [load_model] or [get_model] returns has vocabulary
    size 2454 and not the architecture's default, for every dialect; so has
    every handle in the cache; and every call of [from_local] that
    [load_model] makes is made after [T3Config.multilingual] was patched to
    2454. *)
Theorem vocabulary_override `{E : Extern} (w : World) (d : pystr) (model : ModelHandle) :
  reachable w ->
  out (load_model d w) = inr model \/ out (get_model d w) = inr model ->
  text_tokens_dict_size model = FINE_TUNED_VOCAB
  /\ text_tokens_dict_size model <> DEFAULT_VOCAB
  /\ patched_cache (post (load_model d w))
  /\ (forall p dev vocab,
        In (CallFromLocal p dev vocab) (emitted (load_model d w)) ->
        vocab = FINE_TUNED_VOCAB).
Proof.
  intros Hw Hout. apply reachable_patched_cache in Hw.
  assert (text_tokens_dict_size model = FINE_TUNED_VOCAB) as Hm.
  { assert (out (load_model d w) = inr model
            \/ _models w !! d = Some model) as [H|H].
    { destruct Hout as [H|H]; [now left|].
      destruct (get_model_cases d w) as [(m' & Hc & Hrun)|(_ & Hrun)]; rewrite Hrun in H.
      - right. cbn in H. congruence.
      - now left. }
    - destruct (load_model_cases d w)
        as [(m' & Hc & Hrun)|[(_ & _ & Hrun)|(_ & _ & evs & tail & _ & _ & Hend & _)]].
      + rewrite Hrun in H. cbn in H. injection H as <-. now apply (Hw d).
      + rewrite Hrun in H. discriminate.
      + destruct Hend as [(e & He & _)|(rate & Hr & _)]; [congruence|].
        cbn zeta in Hr. rewrite Hr in H. now injection H as <-.
    - now apply (Hw d). }
  split; [exact Hm|]. split; [rewrite Hm; discriminate|].
  split; [now apply load_model_patched_cache|].
  intros p dev vocab Hin.
  destruct (load_model_cases d w)
    as [(m' & _ & Hrun)|[(_ & _ & Hrun)|(_ & _ & evs & tail & Hq & Ht & _ & Hev)]].
  - rewrite Hrun in Hin. cbn in Hin. destruct Hin as [[=]|[]].
  - rewrite Hrun in Hin. cbn in Hin. destruct Hin as [[=]|[]].
  - rewrite Hev in Hin. apply in_app_iff in Hin. destruct Hin as [Hin|[Hin|Hin]].
    + unfold quiet in Hq. rewrite Forall_forall in Hq.
      apply list_elem_of_In, Hq in Hin. discriminate.
    + now injection Hin as _ _ <-.
    + rewrite Forall_forall in Ht. apply list_elem_of_In, Ht in Hin. discriminate.
Qed.

Lemma vocabulary_override_witness :
  reachable (E := lab) lab_start
  /\ exists model,
       out (load_model (E := lab) (lit "egyptian") lab_start) = inr model
       /\ text_tokens_dict_size model = 2454%Z.
Proof.
  split; [apply reachable_start|].
  eexists. split; [vm_compute; reflexivity|].
  apply (vocabulary_override (E := lab) lab_start (lit "egyptian")).
  - apply reachable_start.
  - left. vm_compute. reflexivity.
Defined.

(** C2, in the form that holds of the code. For a dialect outside the
    closed set, [generate_audio] fails with the [ValueError] for an invalid
    dialect, leaves the process state as it was and makes no file-system
    or library call.  [load_model] and [get_model] do not check the
    dialect: when it is not cached and [models_dir / dialect] does not
    exist, they look for that directory and fail with [FileNotFoundError],
    leaving the cache as it was. *)
Theorem unknown_dialect `{E : Extern} (text d : pystr) (params : SamplingParams)
    (r o : option Path) (w : World) :
  d ∉ valid_dialects ->
  rejects_dialect (generate_audio text d params r o w) w
  /\ (_models w !! d = None -> exists_in (fs w) (models_dir // d) = false ->
      load_model d w = MkRun (inl (FileNotFoundError (not_found_message d))) w
                             [FsExists (models_dir // d)]
      /\ get_model d w = load_model d w).
Proof.
  intros Hd. split; [now apply generate_audio_invalid|].
  intros Hc Hp. split; [now apply load_model_absent|now apply get_model_miss].
Qed.

Lemma lab_french_unknown : lit "french" ∉ valid_dialects.
Proof. apply (bool_decide_unpack (lit "french" ∉ valid_dialects)). vm_compute. exact I. Qed.

Lemma unknown_dialect_witness :
  rejects_dialect
    (generate_audio (E := lab) greeting (lit "french") default_params None None lab_start)
    lab_start
  /\ out (load_model (E := lab) (lit "french") lab_start)
     = inl (FileNotFoundError (not_found_message (E := lab) (lit "french"))).
Proof.
  destruct (unknown_dialect (E := lab) greeting (lit "french") default_params None None
              lab_start lab_french_unknown) as [Hgen Hload].
  split; [exact Hgen|].
  destruct Hload as [-> _]; reflexivity.
Defined.

(** C2, as the design document states it, fails for the registry:
    [load_model] answers an unknown dialect with [FileNotFoundError] after
    looking at the file system. *)
Lemma unknown_dialect_counterexample :
  (lit "french" ∉ valid_dialects)
  /\ ~ (rejects_dialect (load_model (E := lab) (lit "french") lab_start) lab_start
        /\ rejects_dialect (get_model (E := lab) (lit "french") lab_start) lab_start
        /\ rejects_dialect
             (generate_audio (E := lab) greeting (lit "french") default_params None None lab_start)
             lab_start).
Proof.
  split; [exact lab_french_unknown|].
  intros [[[msg Hmsg] _] _]. vm_compute in Hmsg. discriminate.
Qed.

(** C4. For a dialect that is in the cache, [load_model] and [get_model]
    return the cached handle itself (the same object), leave the process
    state (the cache included) as it was, and make no file-system or
    library call: [load_model] writes one log record, [get_model]
    nothing. *)
Theorem resolve_cached `{E : Extern} (w : World) (d : pystr) (model : ModelHandle) :
  _models w !! d = Some model ->
  load_model d w = MkRun (inr model) w [Log INFO "Model for {dialect} already loaded" [d]]
  /\ get_model d w = MkRun (inr model) w []
  /\ forallb is_log (emitted (load_model d w)) = true.
Proof.
  intros Hc. rewrite (load_model_hit d w model Hc), (get_model_hit d w model Hc).
  repeat split.
Qed.

Lemma resolve_cached_witness :
  exists model,
    _models lab_warm !! lit "egyptian" = Some model
    /\ load_model (E := lab) (lit "egyptian") lab_warm
       = MkRun (inr model) lab_warm
               [Log INFO "Model for {dialect} already loaded" [lit "egyptian"]].
Proof.
  eexists. split; [vm_compute; reflexivity|].
  apply (resolve_cached (E := lab) lab_warm (lit "egyptian")).
  vm_compute. reflexivity.
Defined.

(** C5. For a dialect whose directory [models_dir / dialect] is absent,
    in a process whose files nobody else touched or, in any state, when
    the dialect is not cached, [load_model] fails with [FileNotFoundError],
    the message naming that path, and leaves the process state as it was,
    so the cache has no entry for the dialect; once the directory is there
    and the library can load it, the same call returns a model and caches
    it. *)
Theorem missing_model_directory `{E : Extern} (w : World) (d : pystr) :
  undisturbed w \/ _models w !! d = None ->
  exists_in (fs w) (models_dir // d) = false ->
  out (load_model d w)
  = inl (FileNotFoundError (lit "Model not found at " ++ (models_dir // d)
                            ++ lit ". Please download from HuggingFace first."))
  /\ post (load_model d w) = w
  /\ _models (post (load_model d w)) !! d = None
  /\ (forall files rate,
        exists_in files (models_dir // d) = true ->
        from_local files (models_dir // d) _device FINE_TUNED_VOCAB = inr rate ->
        let retry := load_model d (with_fs files (post (load_model d w))) in
        exists model, out retry = inr model /\ _models (post retry) !! d = Some model).
Proof.
  intros Hw Hp.
  assert (_models w !! d = None) as Hc
    by (destruct Hw as [Hw|Hc]; [now apply absent_directory_not_cached|exact Hc]).
  rewrite (load_model_absent d w Hc Hp). cbn [out post].
  split; [reflexivity|]. split; [reflexivity|]. split; [exact Hc|].
  intros files rate Hp' Hload. cbn zeta.
  destruct (load_model_present d (with_fs files w) Hc Hp') as [evs [_ Hrun]].
  cbn [fs with_fs] in Hrun. unfold FINE_TUNED_VOCAB in Hload. rewrite Hload in Hrun.
  cbn zeta in Hrun. rewrite Hrun. eexists. split; [reflexivity|].
  cbn. apply lookup_insert_eq.
Qed.

Lemma missing_model_directory_witness :
  out (load_model (E := lab) (lit "ksa") lab_warm)
  = inl (FileNotFoundError (lit "Model not found at /app/models/ksa. Please download from HuggingFace first."))
  /\ _models (post (load_model (E := lab) (lit "ksa") lab_warm)) !! lit "ksa" = None.
Proof.
  assert (undisturbed (E := lab) lab_warm) as Hw
    by (apply (undisturbed_call (CallLoadModel (lit "egyptian"))), undisturbed_start).
  assert (exists_in (fs lab_warm) (models_dir (E := lab) // lit "ksa") = false) as Hp
    by (vm_compute; reflexivity).
  destruct (missing_model_directory (E := lab) lab_warm (lit "ksa") (or_introl Hw) Hp)
    as (Hout & _ & Hcache & _).
  split; [exact Hout|exact Hcache].
Defined.




(** C6. [preprocess_text] is the normalisation of the design document:
    every run of whitespace becomes one space and the ends are trimmed;
    nothing else changes, the characters that are not whitespace are those
    of the input in their order; "مرحبا    بك" becomes "مرحبا بك"; and the
    text of every call of [model.generate] that [generate_audio] makes is
    the normalised input text. *)
Theorem preprocess_text_normalizes :
  (forall text, preprocess_text text = TextSpec.normalize text)
  /\ (forall text, visible (preprocess_text text) = visible text)
  /\ preprocess_text greeting_raw = greeting
  /\ (forall (E : Extern) text d params r o w model t kwargs,
        In (CallGenerate model t kwargs) (emitted (generate_audio text d params r o w)) ->
        t = preprocess_text text)
  /\ In (CallGenerate 0 greeting (gen_kwargs default_params None))
        (emitted (generate_audio (E := lab) greeting_raw (lit "egyptian") default_params
                                 None None lab_start)).
Proof.
  split; [intros text; apply join_split_normalize|].
  split; [intros text; apply preprocess_text_visible|].
  split; [reflexivity|]. split.
  - intros E text d params r o w model t kwargs Hin.
    pose proof (generate_audio_hands_over text d params r o w) as H.
    rewrite Forall_forall in H. apply list_elem_of_In, H in Hin. exact Hin.
  - vm_compute. auto 40.
Qed.

(** C9. Two calls of [generate_audio] with the same text and dialect and
    no output path that both return, return the same path, whatever the
    state, the sampling parameters and the reference: the path is
    [output_dir / "{dialect}_{hash}.wav"], where the hash is the first eight
    digits of the MD5 of the encoded input text as given, not normalised;
    nothing else enters the name, and each call writes its audio there. *)
Theorem deterministic_filename `{E : Extern} (text d : pystr)
    (params1 params2 : SamplingParams) (r1 r2 : option Path) (w1 w2 : World)
    (p1 p2 : Path) (t1 t2 : Q) :
  out (generate_audio text d params1 r1 None w1) = inr (p1, t1) ->
  out (generate_audio text d params2 r2 None w2) = inr (p2, t2) ->
  p1 = p2
  /\ (exists bytes,
        encode text = Some bytes
        /\ p1 = output_dir // (d ++ lit "_" ++ take 8 (md5_hexdigest bytes) ++ lit ".wav"))
  /\ (exists audio rate,
        fs (post (generate_audio text d params1 r1 None w1)) !! p1 = Some (WavFile audio rate))
  /\ (exists audio rate,
        fs (post (generate_audio text d params2 r2 None w2)) !! p1 = Some (WavFile audio rate)).
Proof.
  intros H1 H2.
  destruct (generate_audio_default_path _ _ _ _ _ _ _ H1) as [Hp1 Hf1].
  destruct (generate_audio_default_path _ _ _ _ _ _ _ H2) as [Hp2 Hf2].
  assert (p1 = p2) as <- by congruence.
  split; [reflexivity|]. split; [|split; assumption].
  unfold default_output_path in Hp1. destruct (encode text) as [bytes|]; [|discriminate].
  exists bytes. split; [reflexivity|]. now injection Hp1 as <-.
Qed.

Lemma deterministic_filename_witness :
  exists p t1 t2,
    out (generate_audio (E := lab) greeting_raw (lit "egyptian") default_params None None lab_start)
    = inr (p, t1)
    /\ out (generate_audio (E := lab) greeting_raw (lit "egyptian") default_params None None lab_warm)
       = inr (p, t2).
Proof.
  pose (r1 := generate_audio (E := lab) greeting_raw (lit "egyptian") default_params None None lab_start).
  pose (r2 := generate_audio (E := lab) greeting_raw (lit "egyptian") default_params None None lab_warm).
  assert (exists p1 t1, out r1 = inr (p1, t1)) as (p1 & t1 & H1)
    by (eexists _, _; vm_compute; reflexivity).
  assert (exists p2 t2, out r2 = inr (p2, t2)) as (p2 & t2 & H2)
    by (eexists _, _; vm_compute; reflexivity).
  subst r1 r2.
  destruct (deterministic_filename (E := lab) greeting_raw (lit "egyptian") default_params
              default_params None None lab_start lab_warm p1 p2 t1 t2 H1 H2) as [<- _].
  exists p1, t1, t2. split; assumption.
Defined.

(** C10. [generate_audio] does not reject an empty text: for a text that
    is empty or all whitespace and a valid dialect, the normalised text is
    the empty string; an error of [get_model] is the error of the call; and
    once [get_model] returned a model, [model.generate] is called with the
    empty string. *)
Theorem blank_text_is_generated `{E : Extern} (text d : pystr) (params : SamplingParams)
    (r o : option Path) (w : World) :
  Forall (fun c => isspace c = true) text ->
  d ∈ valid_dialects ->
  preprocess_text text = []
  /\ (forall e, out (get_model d w) = inl e ->
                out (generate_audio text d params r o w) = inl e)
  /\ (forall model, out (get_model d w) = inr model ->
        In (CallGenerate (oid model) [] (gen_kwargs params (effective_reference (fs w) r)))
           (emitted (generate_audio text d params r o w))).
Proof.
  intros Hblank Hd.
  assert (preprocess_text text = []) as Hempty
    by (unfold preprocess_text; now rewrite split_blank).
  split; [exact Hempty|]. split.
  - intros e He. now apply generate_audio_load_error.
  - intros model Hm. rewrite <- Hempty.
    destruct (get_model d w) as [o1 w1 ev1] eqn:Hg. cbn in Hm. subst o1.
    now apply (generate_audio_attempts text d params r o w model w1 ev1).
Qed.

Lemma lab_egyptian_valid : lit "egyptian" ∈ valid_dialects.
Proof. apply (bool_decide_unpack (lit "egyptian" ∈ valid_dialects)). vm_compute. exact I. Qed.

Lemma blank_text_is_generated_witness :
  preprocess_text (lit "   ") = []
  /\ In (CallGenerate 0 [] (gen_kwargs default_params None))
        (emitted (generate_audio (E := lab) (lit "   ") (lit "egyptian") default_params
                                 None None lab_warm)).
Proof.
  assert (Forall (fun c => isspace c = true) (lit "   ")) as Hblank
    by (repeat constructor).
  destruct (blank_text_is_generated (E := lab) (lit "   ") (lit "egyptian") default_params
              None None lab_warm Hblank lab_egyptian_valid) as (Hempty & _ & Hcall).
  split; [exact Hempty|].
  apply (Hcall (MkModel 0 (lit "/app/models/egyptian") cpu 2454 24000)).
  vm_compute. reflexivity.
Defined.

(** C8 does not hold of the code. On a silent waveform [_save_audio]
    divides every sample by a peak of zero, so all samples of the file it
    writes are NaN. *)
Theorem silent_waveform_is_saved_as_nan :
  finalize_waveform silence
  = Some (MkTensor [1%nat; 3%nat] [f32_nan; f32_nan; f32_nan])
  /\ fs (post (_save_audio (E := lab) silence (lit "/app/generated_audio/silence.wav") 24000
                           lab_start))
     !! lit "/app/generated_audio/silence.wav"
     = Some (WavFile (MkTensor [1%nat; 3%nat] [f32_nan; f32_nan; f32_nan]) 24000).
Proof. split; vm_compute; reflexivity. Qed.


(** The example of the design document on 32-bit floats: samples -0.5 and
    0.3 become -1.0 and 0.6, so the peak is exactly 1.0. *)
Example peak_normalization_float32 :
  finalize_waveform (MkTensor [2%nat] [f32_minus_half; f32_three_tenths])
  = Some (MkTensor [1%nat; 2%nat]
            [S754_finite true 8388608 (-23); S754_finite false 10066330 (-24)]).
Proof. reflexivity. Qed.

(** * Further properties of the code *)

(** The stepper also decides which handler an exception meets. *)
Ltac wp_simpl ::=
  cbn [ret raise gets modify emit log
       out post emitted prepend patched loaded
       fs _models T3Config_multilingual next_oid ticks draws app negb
       without_sample_reference without_reference_file
       cmp_dialect cmp_sample_id cmp_params use_sample_as_reference
       req_text req_dialect req_params reference_audio_file
       is_ValueError].

(** ** The registry over its whole life *)

Section RegistryLife.
Context `{E : Extern}.

(** What a call of [load_model] does to the process state. *)
Lemma load_model_post d w :
  post (load_model d w) = w
  \/ (_models w !! d = None /\ exists_in (fs w) (models_dir // d) = true
      /\ ((exists e, from_local (fs w) (models_dir // d) _device 2454 = inl e
                     /\ out (load_model d w) = inl e
                     /\ post (load_model d w) = patched w)
          \/ (exists rate, from_local (fs w) (models_dir // d) _device 2454 = inr rate
                /\ out (load_model d w)
                   = inr (MkModel (next_oid w) (models_dir // d) _device 2454 rate)
                /\ post (load_model d w)
                   = loaded d (MkModel (next_oid w) (models_dir // d) _device 2454 rate) w))).
Proof.
  destruct (_models w !! d) as [model|] eqn:Hc.
  - left. now rewrite (load_model_hit d w model Hc).
  - destruct (exists_in (fs w) (models_dir // d)) eqn:Hp.
    + right. repeat split.
      destruct (load_model_present d w Hc Hp) as [evs [_ Hrun]].
      destruct (from_local _ _ _ _) as [e|rate]; cbn zeta in Hrun; rewrite Hrun.
      * left. exists e. repeat split.
      * right. exists rate. repeat split.
    + left. now rewrite (load_model_absent d w Hc Hp).
Qed.

Lemma load_model_keeps d' d model :
  preserves (fun w => _models w !! d = Some model) (load_model d').
Proof.
  intros w Hw.
  destruct (load_model_post d' w) as [->|(Hc & _ & [(e & _ & _ & ->)|(rate & _ & _ & ->)])];
    try assumption.
  cbn. rewrite lookup_insert_ne; [assumption|]. intros <-. congruence.
Qed.

Lemma get_model_keeps d' d model :
  preserves (fun w => _models w !! d = Some model) (get_model d').
Proof.
  intros w Hw. destruct (get_model_cases d' w) as [(m & _ & ->)|(_ & ->)]; [exact Hw|].
  now apply load_model_keeps.
Qed.

Lemma load_model_elsewhere d' d w :
  d' <> d -> _models (post (load_model d' w)) !! d = _models w !! d.
Proof.
  intros Hd.
  destruct (load_model_post d' w) as [->|(Hc & _ & [(e & _ & _ & ->)|(rate & _ & _ & ->)])];
    try reflexivity.
  cbn. now rewrite lookup_insert_ne.
Qed.

Lemma bound_cache_loaded d rate w :
  bound_cache w ->
  bound_cache (loaded d (MkModel (next_oid w) (models_dir // d) _device 2454 rate) w).
Proof.
  intros Hw d' model'. cbn. rewrite lookup_insert. case_decide.
  - intros [= <-]. subst d'. cbn. repeat split. lia.
  - intros H'. destruct (Hw d' model' H') as (? & ? & ?). repeat split; try assumption. lia.
Qed.

Lemma load_model_bound_cache d : preserves bound_cache (load_model d).
Proof.
  intros w Hw.
  destruct (load_model_post d w) as [->|(Hc & _ & [(e & _ & _ & ->)|(rate & _ & _ & ->)])];
    try assumption.
  now apply bound_cache_loaded.
Qed.

Lemma get_model_bound_cache d : preserves bound_cache (get_model d).
Proof.
  intros w Hw. destruct (get_model_cases d w) as [(m & _ & ->)|(_ & ->)]; [exact Hw|].
  now apply load_model_bound_cache.
Qed.

Lemma load_model_sound_cache d : preserves sound_cache (load_model d).
Proof.
  intros w [Hb Hd]. split; [now apply load_model_bound_cache|].
  destruct (load_model_post d w) as [->|(Hc & _ & [(e & _ & _ & ->)|(rate & _ & _ & ->)])];
    try assumption.
  intros d1 d2 m1 m2. cbn. rewrite !lookup_insert.
  repeat case_decide; subst.
  - reflexivity.
  - intros [= <-] H2 Ho. cbn in Ho. destruct (Hb d2 m2 H2) as (_ & _ & ?). lia.
  - intros H1 [= <-] Ho. cbn in Ho. destruct (Hb d1 m1 H1) as (_ & _ & ?). lia.
  - apply Hd.
Qed.

Lemma get_model_sound_cache d : preserves sound_cache (get_model d).
Proof.
  intros w Hw. destruct (get_model_cases d w) as [(m & _ & ->)|(_ & ->)]; [exact Hw|].
  now apply load_model_sound_cache.
Qed.

End RegistryLife.

(** An invariant of the registry's part of the state that [load_model] and
    [get_model] keep is kept by everything built on them. *)
Section RegistryInvariant.
Context `{E : Extern}.
Variable P : World -> Prop.
Hypothesis P_load : forall d, preserves P (load_model d).
Hypothesis P_get : forall d, preserves P (get_model d).
Hypothesis P_frame : forall w w', registry w = registry w' -> P w -> P w'.

Ltac framed :=
  compositional;
  try (intros ? ?; eapply P_frame; [|eassumption]; reflexivity).

Lemma invariant_load_all_models : preserves P load_all_models.
Proof. unfold load_all_models. framed. Qed.

Lemma invariant_generate_audio text d params r o :
  preserves P (generate_audio text d params r o).
Proof. unfold generate_audio. framed. Qed.

Lemma invariant_generate_tts request : preserves P (generate_tts request).
Proof.
  pose proof invariant_generate_audio. unfold generate_tts. framed.
Qed.

Lemma invariant_compare_with_sample request : preserves P (compare_with_sample request).
Proof.
  pose proof invariant_generate_audio. unfold compare_with_sample. framed.
Qed.

Lemma invariant_after c w : is_clear_cache c = false -> P w -> P (after c w).
Proof.
  destruct c; cbn [after is_clear_cache]; try discriminate; intros _.
  - apply P_load.
  - apply P_get.
  - apply invariant_load_all_models.
  - apply invariant_generate_audio.
  - apply invariant_generate_tts.
  - apply invariant_compare_with_sample.
Qed.

Lemma invariant_after_all calls : forall w,
  forallb (fun c => negb (is_clear_cache c)) calls = true -> P w -> P (after_all calls w).
Proof.
  induction calls as [|c calls IH]; intros w Hc Hw; [exact Hw|].
  cbn in Hc. apply andb_true_iff in Hc as [Hc Hcs]. apply negb_true_iff in Hc.
  cbn. apply IH; [exact Hcs|]. now apply invariant_after.
Qed.

Lemma invariant_reachable :
  (forall files, P (initial_world files)) -> preserves P clear_cache ->
  forall w, reachable w -> P w.
Proof.
  intros Hstart Hclear w. induction 1 as [files|c w _ IH|files w _ IH].
  - apply Hstart.
  - destruct (is_clear_cache c) eqn:Hc; [|now apply invariant_after].
    destruct c; try discriminate. now apply Hclear.
  - eapply P_frame; [|exact IH]. reflexivity.
Qed.

End RegistryInvariant.

Lemma reachable_sound_cache `{E : Extern} (w : World) : reachable w -> sound_cache w.
Proof.
  apply (invariant_reachable sound_cache).
  - intros d. apply load_model_sound_cache.
  - intros d. apply get_model_sound_cache.
  - intros w1 w2 [= Hm _ Hn] [Hb Hd]. split.
    + intros d model. rewrite <- Hm, <- Hn. apply Hb.
    + intros d1 d2 m1 m2. rewrite <- Hm. apply Hd.
  - intros files. split; intros ?; intros; cbn in *; now rewrite lookup_empty in *.
  - intros w' _. split; intros ?; intros; cbn in *; now rewrite lookup_empty in *.
Qed.

Section Startup.
Context `{E : Extern}.

(** One round of [load_all_models]. *)
Lemma load_all_models_round d w h :
  (forall e w', out (h e w') = inr tt /\ post (h e w') = w') ->
  out (try_except (load_model d >> ret tt) h w) = inr tt
  /\ post (try_except (load_model d >> ret tt) h w) = post (load_model d w).
Proof.
  intros Hh. unfold try_except, bind.
  destruct (load_model d w) as [[e|model] w' evs]; cbn.
  - specialize (Hh e w'). destruct (h e w') as [o w'' evs']. cbn in *. tauto.
  - split; reflexivity.
Qed.

Lemma for_each_returns {A} (f : A -> M unit) (step : A -> World -> World) l : forall w,
  (forall a w', out (f a w') = inr tt /\ post (f a w') = step a w') ->
  out (for_each f l w) = inr tt
  /\ post (for_each f l w) = fold_left (fun w' a => step a w') l w.
Proof.
  induction l as [|a l IH]; intros w Hf; cbn [for_each fold_left]; [split; reflexivity|].
  unfold bind. destruct (Hf a w) as [Ho Hp].
  destruct (f a w) as [o w' evs]. cbn in Ho, Hp. subst o w'.
  destruct (IH (step a w) Hf) as [Ho Hp].
  destruct (for_each f l (step a w)) as [o w' evs']. cbn in *. now subst.
Qed.

Lemma load_all_models_run w :
  out (load_all_models w) = inr tt
  /\ post (load_all_models w)
     = fold_left (fun w' d => post (load_model d w')) DIALECTS w.
Proof.
  unfold load_all_models. apply for_each_returns. intros d w'.
  apply load_all_models_round. intros e w''. destruct e; split; reflexivity.
Qed.

Lemma load_all_models_returns w : out (load_all_models w) = inr tt.
Proof. apply load_all_models_run. Qed.

Lemma rounds_fs l : forall w,
  fs (fold_left (fun w' d => post (load_model d w')) l w) = fs w.
Proof.
  induction l as [|d l IH]; intros w; cbn [fold_left]; [reflexivity|].
  now rewrite IH, load_model_fs.
Qed.

Lemma rounds_elsewhere d l : forall w,
  d ∉ l ->
  _models (fold_left (fun w' d' => post (load_model d' w')) l w) !! d = _models w !! d.
Proof.
  induction l as [|d' l IH]; intros w Hd; cbn [fold_left]; [reflexivity|].
  apply not_elem_of_cons in Hd as [Hne Hd].
  rewrite IH by exact Hd. apply load_model_elsewhere. congruence.
Qed.

Lemma rounds_outcome d l : forall w,
  NoDup l -> d ∈ l -> _models w !! d = None ->
  match _models (fold_left (fun w' d' => post (load_model d' w')) l w) !! d with
  | Some model =>
      exists_in (fs w) (models_dir // d) = true
      /\ from_local (fs w) (models_dir // d) _device 2454 = inr (sr model)
  | None =>
      exists_in (fs w) (models_dir // d) = false
      \/ exists e, from_local (fs w) (models_dir // d) _device 2454 = inl e
  end.
Proof.
  induction l as [|d' l IH]; intros w Hnd Hd Hc; [now apply elem_of_nil in Hd|].
  apply NoDup_cons in Hnd as [Hnew Hnd]. cbn [fold_left].
  destruct (decide (d' = d)) as [->|Hne].
  - rewrite rounds_elsewhere by exact Hnew.
    destruct (exists_in (fs w) (models_dir // d)) eqn:Hp.
    + destruct (load_model_present d w Hc Hp) as [evs [_ Hrun]].
      destruct (from_local _ _ _ _) as [e|rate] eqn:Hl; cbn zeta in Hrun; rewrite Hrun; cbn.
      * rewrite Hc. right. now exists e.
      * rewrite lookup_insert_eq. cbn. split; reflexivity.
    + rewrite (load_model_absent d w Hc Hp). cbn. rewrite Hc. now left.
  - apply elem_of_cons in Hd as [->|Hd]; [congruence|].
    specialize (IH (post (load_model d' w)) Hnd Hd).
    rewrite load_model_fs in IH. apply IH.
    rewrite load_model_elsewhere by exact Hne. exact Hc.
Qed.

Lemma DIALECTS_NoDup : NoDup DIALECTS.
Proof. apply (bool_decide_unpack (NoDup DIALECTS)). vm_compute. exact I. Qed.

End Startup.

(** ** model_loader.py *)

(** What [load_all_models] leaves in the cache for a dialect that was not
    cached is decided by that dialect alone: the model is there afterwards
    exactly when its directory exists and the library loads it; the
    failures of the other dialects do not matter. *)
Theorem load_all_models_outcome `{E : Extern} (w : World) (d : pystr) :
  d ∈ DIALECTS ->
  _models w !! d = None ->
  match _models (post (load_all_models w)) !! d with
  | Some model =>
      exists_in (fs w) (models_dir // d) = true
      /\ from_local (fs w) (models_dir // d) _device FINE_TUNED_VOCAB = inr (sr model)
  | None =>
      exists_in (fs w) (models_dir // d) = false
      \/ exists e, from_local (fs w) (models_dir // d) _device FINE_TUNED_VOCAB = inl e
  end.
Proof.
  intros Hd Hc. destruct (load_all_models_run w) as [_ ->].
  apply rounds_outcome; [apply DIALECTS_NoDup|exact Hd|exact Hc].
Qed.

Lemma load_all_models_outcome_witness :
  match _models (post (load_all_models (E := lab) lab_start)) !! lit "egyptian" with
  | Some model =>
      exists_in (fs lab_start) (models_dir (E := lab) // lit "egyptian") = true
      /\ from_local (Extern := lab) (fs lab_start) (models_dir (E := lab) // lit "egyptian")
                    (_device (E := lab)) FINE_TUNED_VOCAB = inr (sr model)
  | None =>
      exists_in (fs lab_start) (models_dir (E := lab) // lit "egyptian") = false
      \/ exists e, from_local (Extern := lab) (fs lab_start)
                              (models_dir (E := lab) // lit "egyptian")
                              (_device (E := lab)) FINE_TUNED_VOCAB = inl e
  end.
Proof.
  apply (load_all_models_outcome (E := lab) lab_start (lit "egyptian")).
  - apply (bool_decide_unpack (lit "egyptian" ∈ DIALECTS)). vm_compute. exact I.
  - reflexivity.
Defined.

(** [startup_event] never fails, and since [load_all_models] swallows
    every failure it always reports that all models were loaded, also when
    none was; the state it leaves is the one [load_all_models] leaves. *)
Theorem startup_event_reports_success `{E : Extern} (w : World) :
  out (startup_event w) = inr tt
  /\ post (startup_event w) = post (load_all_models w)
  /\ In (Log INFO "All models loaded successfully!" []) (emitted (startup_event w)).
Proof.
  pose proof (load_all_models_returns w) as Hout.
  destruct (load_all_models w) as [o w' evs] eqn:Hrun. cbn in Hout. subst o.
  change (wp startup_event w (fun r =>
    out r = inr tt /\ post r = w'
    /\ In (Log INFO "All models loaded successfully!" []) (emitted r))).
  unfold startup_event. repeat wp_step.
  split; [reflexivity|]. split; [reflexivity|]. find_event.
Qed.

(** A handle that is in the cache stays there, the same object, through
    every history of calls that does not clear the cache: [get_model]
    returns it afterwards without touching the disk or the library. *)
Theorem cached_handle_survives `{E : Extern} (calls : list Call) (w : World)
    (d : pystr) (model : ModelHandle) :
  forallb (fun c => negb (is_clear_cache c)) calls = true ->
  _models w !! d = Some model ->
  get_model d (after_all calls w) = MkRun (inr model) (after_all calls w) [].
Proof.
  intros Hcalls Hc. apply get_model_hit.
  apply (invariant_after_all (fun w' => _models w' !! d = Some model)); try assumption.
  - intros d'. apply load_model_keeps.
  - intros d'. apply get_model_keeps.
  - intros w1 w2 [= H _ _]. now rewrite H.
Qed.

Lemma cached_handle_survives_witness :
  exists model,
    _models lab_warm !! lit "egyptian" = Some model
    /\ out (get_model (E := lab) (lit "egyptian")
              (after_all (E := lab)
                 [CallLoadAllModels; CallGenerateTTS lab_request; CallCompare lab_compare] lab_warm))
       = inr model.
Proof.
  eexists. split; [vm_compute; reflexivity|].
  rewrite (cached_handle_survives (E := lab)
             [CallLoadAllModels; CallGenerateTTS lab_request; CallCompare lab_compare]
             lab_warm (lit "egyptian")
             (MkModel 0 (lit "/app/models/egyptian") cpu 2454 24000)).
  - reflexivity.
  - reflexivity.
  - vm_compute. reflexivity.
Defined.

(** In every state the process can reach, a cached handle was loaded from
    the directory of the dialect it is cached under, on the device of the
    process, and no two dialects share one object. *)
Theorem reachable_cache_is_sound `{E : Extern} (w : World) :
  reachable w ->
  (forall d model, _models w !! d = Some model ->
     model_dir model = models_dir // d /\ device model = _device)
  /\ distinct_objects w.
Proof.
  intros Hw.
  destruct (reachable_sound_cache w Hw) as [Hb Hd].
  split; [|exact Hd].
  intros d model Hc. destruct (Hb d model Hc) as (? & ? & _). now split.
Qed.

Lemma reachable_cache_is_sound_witness :
  (forall d model, _models lab_warm !! d = Some model ->
     model_dir model = models_dir (E := lab) // d /\ device model = _device (E := lab))
  /\ distinct_objects lab_warm.
Proof.
  apply (reachable_cache_is_sound (E := lab) lab_warm).
  apply (reachable_call (CallLoadModel (lit "egyptian"))), reachable_start.
Defined.

(** [clear_cache] empties the cache and nothing else; the next resolve of
    a dialect that was cached goes to the library again and gets a new
    object, not the one that was evicted. *)
Theorem clear_cache_forces_reload `{E : Extern} (w : World) (d : pystr)
    (old : ModelHandle) (rate : Z) :
  reachable w ->
  _models w !! d = Some old ->
  exists_in (fs w) (models_dir // d) = true ->
  from_local (fs w) (models_dir // d) _device FINE_TUNED_VOCAB = inr rate ->
  _models (post (clear_cache w)) = ∅
  /\ fs (post (clear_cache w)) = fs w
  /\ T3Config_multilingual (post (clear_cache w)) = T3Config_multilingual w
  /\ exists model,
       out (get_model d (post (clear_cache w))) = inr model
       /\ oid model <> oid old
       /\ In (CallFromLocal (models_dir // d) _device FINE_TUNED_VOCAB)
             (emitted (get_model d (post (clear_cache w))))
       /\ _models (post (get_model d (post (clear_cache w)))) !! d = Some model.
Proof.
  intros Hw Hc Hp Hl.
  destruct (reachable_sound_cache w Hw) as [Hb _].
  destruct (Hb d old Hc) as (_ & _ & Hold).
  cbn [clear_cache]. unfold clear_cache, bind, modify, log, emit. cbn [post].
  repeat (split; [reflexivity|]).
  set (w' := MkWorld (fs w) ∅ (T3Config_multilingual w) (next_oid w) (ticks w) (draws w)).
  assert (_models w' !! d = None) as Hc' by apply lookup_empty.
  rewrite (get_model_miss d w' Hc').
  destruct (load_model_present d w' Hc' Hp) as [evs [_ Hrun]].
  cbn [fs w'] in Hrun. unfold FINE_TUNED_VOCAB in Hl. rewrite Hl in Hrun.
  cbn zeta in Hrun. rewrite Hrun. eexists. split; [reflexivity|].
  split; [cbn; lia|]. split.
  - cbn [emitted]. apply in_app_iff. right. now left.
  - cbn. apply lookup_insert_eq.
Qed.

Lemma clear_cache_forces_reload_witness :
  exists model,
    out (get_model (E := lab) (lit "egyptian") (post (clear_cache lab_warm))) = inr model
    /\ oid model <> 0%nat.
Proof.
  destruct (clear_cache_forces_reload (E := lab) lab_warm (lit "egyptian")
              (MkModel 0 (lit "/app/models/egyptian") cpu 2454 24000) 24000)
    as (_ & _ & _ & model & Hout & Hoid & _).
  - apply (reachable_call (CallLoadModel (lit "egyptian"))), reachable_start.
  - vm_compute. reflexivity.
  - vm_compute. reflexivity.
  - reflexivity.
  - exists model. split; [exact Hout|exact Hoid].
Defined.

(** When the library fails to load a directory that is there,
    [load_model] raises the library's exception unchanged after logging
    it, caches nothing and leaves the files alone; the vocabulary patch it
    applied before the attempt stays. *)
Theorem failed_load_leaves_no_entry `{E : Extern} (w : World) (d : pystr) (e : exn) :
  _models w !! d = None ->
  exists_in (fs w) (models_dir // d) = true ->
  from_local (fs w) (models_dir // d) _device FINE_TUNED_VOCAB = inl e ->
  out (load_model d w) = inl e
  /\ _models (post (load_model d w)) = _models w
  /\ fs (post (load_model d w)) = fs w
  /\ T3Config_multilingual (post (load_model d w)) = FINE_TUNED_VOCAB
  /\ In (Log ERROR "Error loading {dialect} from HuggingFace: {str(e)}" [d; str_exn e])
        (emitted (load_model d w)).
Proof.
  intros Hc Hp Hl. destruct (load_model_present d w Hc Hp) as [evs [_ Hrun]].
  unfold FINE_TUNED_VOCAB in Hl. rewrite Hl in Hrun. rewrite Hrun. cbn [out post emitted].
  repeat (split; [reflexivity|]). apply in_app_iff. right. right. now left.
Qed.

Lemma failed_load_leaves_no_entry_witness :
  out (load_model (E := lab_broken) (lit "egyptian") lab_start)
  = inl (RuntimeError (lit "PytorchStreamReader failed reading zip archive"))
  /\ _models (post (load_model (E := lab_broken) (lit "egyptian") lab_start)) = _models lab_start.
Proof.
  destruct (failed_load_leaves_no_entry (E := lab_broken) lab_start (lit "egyptian")
              (RuntimeError (lit "PytorchStreamReader failed reading zip archive")))
    as (Hout & Hcache & _).
  - reflexivity.
  - vm_compute. reflexivity.
  - reflexivity.
  - split; [exact Hout|exact Hcache].
Defined.

(** [load_all_models] returns normally from every state, whatever happens
    to the single loads: a missing directory and a failure of the library
    are logged and the loop goes on.  It only reads the disk: the file
    system is as it was, no file is written and [model.generate] is never
    called. *)
Theorem load_all_models_never_raises `{E : Extern} (w : World) :
  out (load_all_models w) = inr tt
  /\ fs (post (load_all_models w)) = fs w
  /\ Forall (fun ev => is_write ev = false /\ is_generate ev = false)
            (emitted (load_all_models w)).
Proof.
  split; [apply load_all_models_run|]. split.
  - destruct (load_all_models_run w) as [_ ->]. apply rounds_fs.
  - revert w.
    change (emits (fun ev => is_write ev = false /\ is_generate ev = false) load_all_models).
    unfold load_all_models, load_model, report_file, ChatterboxMultilingualTTS_from_local,
      patch_T3Config, cache_put.
    compositional.
Qed.

(** ** tts_service.py *)

(** Whatever the caller asks for, [generate_audio] calls the model with
    language "ar" and with the five sampling parameters exactly as given,
    unclamped; the audio prompt is the reference given or none. *)
Theorem generate_audio_forwards_parameters `{E : Extern} (text d : pystr)
    (params : SamplingParams) (r o : option Path) (w : World) :
  Forall (generates (fun _ kwargs =>
            language_id kwargs = lit "ar"
            /\ kw_temperature kwargs = temperature params
            /\ kw_repetition_penalty kwargs = repetition_penalty params
            /\ kw_top_p kwargs = top_p params
            /\ kw_min_p kwargs = min_p params
            /\ kw_cfg_weight kwargs = cfg_weight params
            /\ (audio_prompt_path kwargs = None \/ audio_prompt_path kwargs = r)))
         (emitted (generate_audio text d params r o w)).
Proof.
  set (P := fun (_ : pystr) kwargs =>
            language_id kwargs = lit "ar"
            /\ kw_temperature kwargs = temperature params
            /\ kw_repetition_penalty kwargs = repetition_penalty params
            /\ kw_top_p kwargs = top_p params
            /\ kw_min_p kwargs = min_p params
            /\ kw_cfg_weight kwargs = cfg_weight params
            /\ (audio_prompt_path kwargs = None \/ audio_prompt_path kwargs = r)).
  change (wp (generate_audio text d params r o) w (fun run =>
    Forall (generates P) (emitted run))).
  destruct (get_model d w) as [o1 w1 ev1] eqn:Hg.
  assert (Forall (generates P) ev1) as Hev
    by (pose proof (get_model_generates P d w) as H; now rewrite Hg in H).
  unfold generate_audio. wp_to_tail.
  all: try lazymatch goal with
           | |- wp ?m ?w' _ =>
               assert (emits (generates P) m) as Htail by compositional;
               specialize (Htail w'); wp_cut; rewrite Hcut in Htail; cbn [emitted] in Htail
           end.
  all: repeat wp_step.
  all: repeat first [ assumption | apply List.Forall_nil | apply List.Forall_cons
                     | apply Forall_app; split ].
  all: subst P; cbn; auto 10.
Qed.

(** [generate_audio] changes the files at one path at most, the output
    path (the one given, else the one derived from dialect and text), where
    it puts a WAV file; when it returns, that is the path it returns.
    Nothing is ever deleted. *)
Theorem generate_audio_writes_one_file `{E : Extern} (text d : pystr)
    (params : SamplingParams) (r o : option Path) (w : World) :
  let run := generate_audio text d params r o w in
  let chosen p := o = Some p \/ (o = None /\ default_output_path text d = Some p) in
  match out run with
  | inr (p, _) =>
      chosen p /\ exists audio rate, fs (post run) = <[p := WavFile audio rate]> (fs w)
  | inl _ =>
      fs (post run) = fs w
      \/ exists p audio rate,
           chosen p /\ fs (post run) = <[p := WavFile audio rate]> (fs w)
  end.
Proof.
  cbn zeta.
  destruct (get_model d w) as [o1 w1 ev1] eqn:Hg.
  assert (fs w1 = fs w) as Hfs by (rewrite <- (get_model_fs d w), Hg; reflexivity).
  rewrite <- Hfs.
  change (wp (generate_audio text d params r o) w (fun run =>
    match out run with
    | inr (p, _) =>
        (o = Some p \/ (o = None /\ default_output_path text d = Some p))
        /\ exists audio rate, fs (post run) = <[p := WavFile audio rate]> (fs w1)
    | inl _ =>
        fs (post run) = fs w1
        \/ exists p audio rate,
             (o = Some p \/ (o = None /\ default_output_path text d = Some p))
             /\ fs (post run) = <[p := WavFile audio rate]> (fs w1)
    end)).
  unfold generate_audio. repeat wp_step.
  all: first [ left; symmetry; exact Hfs
             | left; reflexivity
             | right; eexists _, _, _; split; [|reflexivity]; auto
             | split; [|eexists _, _; reflexivity]; auto ].
Qed.

(** The file name is derived from the text only after the model has run:
    a text that UTF-8 cannot encode (a lone surrogate) costs a generation
    and then fails with [UnicodeEncodeError], with no file written. *)
Theorem unencodable_text_fails_after_generation `{E : Extern} (text d : pystr)
    (params : SamplingParams) (r : option Path) (w w1 : World)
    (model : ModelHandle) (ev1 : list Event) (wav : Tensor float32) :
  d ∈ valid_dialects ->
  encode text = None ->
  get_model d w = MkRun (inr model) w1 ev1 ->
  generate model (fs w1) (draws w1) (preprocess_text text)
           (gen_kwargs params (effective_reference (fs w1) r)) = inr wav ->
  out (generate_audio text d params r None w) = inl UnicodeEncodeError
  /\ fs (post (generate_audio text d params r None w)) = fs w
  /\ In (CallGenerate (oid model) (preprocess_text text)
           (gen_kwargs params (effective_reference (fs w1) r)))
        (emitted (generate_audio text d params r None w)).
Proof.
  intros Hd Henc Hg Hgen.
  assert (fs w1 = fs w) as Hfs by (rewrite <- (get_model_fs d w), Hg; reflexivity).
  assert (default_output_path text d = None) as Hpath
    by (unfold default_output_path; now rewrite Henc).
  rewrite <- Hfs.
  change (wp (generate_audio text d params r None) w (fun run =>
    out run = inl UnicodeEncodeError
    /\ fs (post run) = fs w1
    /\ In (CallGenerate (oid model) (preprocess_text text)
             (gen_kwargs params (effective_reference (fs w1) r))) (emitted run))).
  unfold generate_audio. rewrite (bool_decide_eq_true_2 _ Hd).
  unfold effective_reference in *.
  destruct r as [p|]; [destruct (exists_in (fs w1) p) eqn:Hp|].
  all: repeat wp_step.
  all: split; [reflexivity|split; [reflexivity|find_event]].
Qed.

Lemma unencodable_text_fails_after_generation_witness :
  out (generate_audio (E := lab) [55296] (lit "egyptian") default_params None None lab_start)
  = inl UnicodeEncodeError
  /\ fs (post (generate_audio (E := lab) [55296] (lit "egyptian") default_params None None
                 lab_start)) = fs lab_start.
Proof.
  destruct (unencodable_text_fails_after_generation (E := lab) [55296] (lit "egyptian")
              default_params None lab_start lab_warm
              (MkModel 0 (lit "/app/models/egyptian") cpu 2454 24000)
              (emitted (get_model (E := lab) (lit "egyptian") lab_start)) lab_wav)
    as (Hout & Hfs & _).
  - apply (bool_decide_unpack (lit "egyptian" ∈ valid_dialects)). vm_compute. exact I.
  - reflexivity.
  - vm_compute. reflexivity.
  - reflexivity.
  - split; [exact Hout|exact Hfs].
Defined.

(** A failure of [model.generate] is logged and raised again unchanged;
    no file is written, and the model that was resolved for the request
    stays in the cache. *)
Theorem generation_error_is_reraised `{E : Extern} (text d : pystr)
    (params : SamplingParams) (r o : option Path) (w w1 : World)
    (model : ModelHandle) (ev1 : list Event) (e : exn) :
  d ∈ valid_dialects ->
  get_model d w = MkRun (inr model) w1 ev1 ->
  generate model (fs w1) (draws w1) (preprocess_text text)
           (gen_kwargs params (effective_reference (fs w1) r)) = inl e ->
  out (generate_audio text d params r o w) = inl e
  /\ fs (post (generate_audio text d params r o w)) = fs w
  /\ _models (post (generate_audio text d params r o w)) = _models w1
  /\ In (Log ERROR "Error generating audio: {str(e)}" [str_exn e])
        (emitted (generate_audio text d params r o w))
  /\ Forall (fun ev => is_write ev = false) (emitted (generate_audio text d params r o w)).
Proof.
  intros Hd Hg Hgen.
  assert (fs w1 = fs w) as Hfs by (rewrite <- (get_model_fs d w), Hg; reflexivity).
  assert (Forall (fun ev => is_write ev = false) ev1) as Hev.
  { assert (emits (fun ev => is_write ev = false) (get_model d)) as H.
    { unfold get_model, load_model, report_file, ChatterboxMultilingualTTS_from_local,
        patch_T3Config, cache_put. compositional. }
    specialize (H w). now rewrite Hg in H. }
  rewrite <- Hfs.
  change (wp (generate_audio text d params r o) w (fun run =>
    out run = inl e
    /\ fs (post run) = fs w1
    /\ _models (post run) = _models w1
    /\ In (Log ERROR "Error generating audio: {str(e)}" [str_exn e]) (emitted run)
    /\ Forall (fun ev => is_write ev = false) (emitted run))).
  unfold generate_audio. rewrite (bool_decide_eq_true_2 _ Hd).
  unfold effective_reference in *.
  destruct r as [p|]; [destruct (exists_in (fs w1) p) eqn:Hp|].
  all: repeat wp_step.
  all: repeat (split; [reflexivity|]); split; [find_event|].
  all: repeat first [ assumption | apply List.Forall_nil | apply List.Forall_cons
                     | apply Forall_app; split ]; reflexivity.
Qed.

Lemma generation_error_is_reraised_witness :
  out (generate_audio (E := lab_exhausted) greeting (lit "egyptian") default_params None None
         lab_start)
  = inl (RuntimeError (lit "CUDA out of memory"))
  /\ fs (post (generate_audio (E := lab_exhausted) greeting (lit "egyptian") default_params
                 None None lab_start)) = fs lab_start.
Proof.
  destruct (generation_error_is_reraised (E := lab_exhausted) greeting (lit "egyptian")
              default_params None None lab_start
              (post (get_model (E := lab_exhausted) (lit "egyptian") lab_start))
              (MkModel 0 (lit "/app/models/egyptian") cpu 2454 24000)
              (emitted (get_model (E := lab_exhausted) (lit "egyptian") lab_start))
              (RuntimeError (lit "CUDA out of memory")))
    as (Hout & Hfs & _).
  - apply (bool_decide_unpack (lit "egyptian" ∈ valid_dialects)). vm_compute. exact I.
  - vm_compute. reflexivity.
  - reflexivity.
  - split; [exact Hout|exact Hfs].
Defined.





(** All that [generate_audio] does to the registry is what [get_model]
    does for the dialect: whether the request then succeeds or fails, the
    cache, the patch and the object counter are those [get_model] left; for
    a dialect outside the closed set they are untouched. *)
Theorem generate_audio_registry_effect `{E : Extern} (text d : pystr)
    (params : SamplingParams) (r o : option Path) (w : World) :
  registry (post (generate_audio text d params r o w))
  = if bool_decide (d ∈ valid_dialects) then registry (post (get_model d w)) else registry w.
Proof.
  destruct (get_model d w) as [o1 w1 ev1] eqn:Hg. cbn [post].
  change (wp (generate_audio text d params r o) w (fun run =>
    registry (post run)
    = if bool_decide (d ∈ valid_dialects) then registry w1 else registry w)).
  unfold generate_audio. destruct (bool_decide (d ∈ valid_dialects)) eqn:Hd.
  all: repeat wp_step; reflexivity.
Qed.

(** The successful path as a whole: the file at the output path holds the
    generated waveform, reshaped and peak-normalised, at the sample rate
    of the model; the time returned is the difference of the two readings
    of the clock taken around [model.generate], so loading the model is
    not counted. *)
Theorem generate_audio_saves_normalized_audio `{E : Extern} (text d : pystr)
    (params : SamplingParams) (r o : option Path) (p : Path) (w w1 : World)
    (model : ModelHandle) (ev1 : list Event) (wav audio : Tensor float32) (samples : nat) :
  d ∈ valid_dialects ->
  get_model d w = MkRun (inr model) w1 ev1 ->
  generate model (fs w1) (draws w1) (preprocess_text text)
           (gen_kwargs params (effective_reference (fs w1) r)) = inr wav ->
  o = Some p \/ (o = None /\ default_output_path text d = Some p) ->
  finalize_waveform wav = Some audio ->
  torchaudio_save_raises (fs w1) p audio (sr model) = None ->
  last (shape wav) = Some samples ->
  sr model <> 0%Z ->
  ~ (wall_clock (S (ticks w1)) - wall_clock (ticks w1) == 0)%Q ->
  out (generate_audio text d params r o w)
  = inr (p, (wall_clock (S (ticks w1)) - wall_clock (ticks w1))%Q)
  /\ fs (post (generate_audio text d params r o w))
     = <[p := WavFile audio (sr model)]> (fs w)
  /\ ticks (post (generate_audio text d params r o w)) = S (S (ticks w1)).
Proof.
  intros Hd Hg Hgen Hpath Hfin Hsave Hlast Hsr Hclock.
  assert (fs w1 = fs w) as Hfs by (rewrite <- (get_model_fs d w), Hg; reflexivity).
  assert (Qeq_bool (inject_Z (sr model)) 0 = false) as Hrate.
  { apply not_true_is_false. intros H. apply Qeq_bool_iff in H.
    apply Hsr. unfold Qeq in H. cbn in H. lia. }
  assert (Qeq_bool (wall_clock (S (ticks w1)) - wall_clock (ticks w1)) 0 = false) as Htime.
  { apply not_true_is_false. intros H. now apply Qeq_bool_iff in H. }
  rewrite <- Hfs.
  change (wp (generate_audio text d params r o) w (fun run =>
    out run = inr (p, (wall_clock (S (ticks w1)) - wall_clock (ticks w1))%Q)
    /\ fs (post run) = <[p := WavFile audio (sr model)]> (fs w1)
    /\ ticks (post run) = S (S (ticks w1)))).
  unfold generate_audio. rewrite (bool_decide_eq_true_2 _ Hd).
  unfold effective_reference in *.
  destruct Hpath as [->|[-> Hpath]].
  all: destruct r as [q|]; [destruct (exists_in (fs w1) q) eqn:Hq|].
  all: repeat wp_step.
  all: repeat split; reflexivity.
Qed.

Lemma generate_audio_saves_normalized_audio_witness :
  out (generate_audio (E := lab) greeting (lit "egyptian") default_params None
         (Some (lit "/app/generated_audio/out.wav")) lab_start)
  = inr (lit "/app/generated_audio/out.wav", (1 - 0)%Q).
Proof.
  destruct (generate_audio_saves_normalized_audio (E := lab) greeting (lit "egyptian")
              default_params None (Some (lit "/app/generated_audio/out.wav"))
              (lit "/app/generated_audio/out.wav") lab_start lab_warm
              (MkModel 0 (lit "/app/models/egyptian") cpu 2454 24000)
              (emitted (get_model (E := lab) (lit "egyptian") lab_start))
              lab_wav
              (MkTensor [1%nat; 2%nat]
                 [SFdiv 24 128 f32_minus_half (SFabs f32_minus_half);
                  SFdiv 24 128 f32_three_tenths (SFabs f32_minus_half)])
              2%nat)
    as [Hout _].
  - apply (bool_decide_unpack (lit "egyptian" ∈ valid_dialects)). vm_compute. exact I.
  - vm_compute. reflexivity.
  - reflexivity.
  - left. reflexivity.
  - vm_compute. reflexivity.
  - reflexivity.
  - reflexivity.
  - discriminate.
  - intros H. vm_compute in H. discriminate.
  - exact Hout.
Defined.

(** ** api/main.py *)

Section ServiceErrors.
Context `{E : Extern}.

Lemma get_model_error_not_http d w e :
  libraries_raise_no_http -> out (get_model d w) = inl e -> http_status e = None.
Proof.
  intros (Hlib & _ & _) Hout.
  destruct (get_model_cases d w) as [(model & _ & Hrun)|(Hc & Hrun)];
    rewrite Hrun in Hout; [discriminate|].
  destruct (exists_in (fs w) (models_dir // d)) eqn:Hp.
  - destruct (load_model_post d w) as [Hpost|(_ & _ & [(e' & Hl & He & _)|(rate & _ & Hr & _)])].
    + destruct (load_model_present d w Hc Hp) as [evs [_ H]].
      destruct (from_local _ _ _ _) as [e'|rate] eqn:Hl; cbn zeta in H;
        rewrite H in Hout; cbn in Hout; [|discriminate].
      injection Hout as <-. eapply Hlib, Hl.
    + rewrite He in Hout. injection Hout as <-. eapply Hlib, Hl.
    + rewrite Hr in Hout. discriminate.
  - rewrite (load_model_absent d w Hc Hp) in Hout. now injection Hout as <-.
Qed.

Lemma generate_audio_error_not_http text d params r o w e :
  libraries_raise_no_http ->
  out (generate_audio text d params r o w) = inl e -> http_status e = None.
Proof.
  intros Hlib.
  pose proof (fun e' => get_model_error_not_http d w e' Hlib) as Hget.
  destruct Hlib as (_ & Hgen & Hsave).
  destruct (get_model d w) as [o1 w1 ev1] eqn:Hg. cbn [out] in Hget.
  change (wp (generate_audio text d params r o) w (fun run =>
    out run = inl e -> http_status e = None)).
  unfold generate_audio. repeat wp_step.
  all: intros [= <-]; try reflexivity; eauto.
Qed.

End ServiceErrors.

(** [generate_tts] fails with an [HTTPException] only, of status 400, 404
    or 500: no other exception leaves the endpoint. *)
Theorem generate_tts_fails_with_http_status `{E : Extern} (request : TTSRequest) (w : World) :
  match out (generate_tts request w) with
  | inr _ => True
  | inl e => http_status e = Some 400 \/ http_status e = Some 404 \/ http_status e = Some 500
  end.
Proof.
  change (wp (generate_tts request) w (fun run =>
    match out run with
    | inr _ => True
    | inl e => http_status e = Some 400 \/ http_status e = Some 404 \/ http_status e = Some 500
    end)).
  unfold generate_tts. repeat first [wp_step | wp_cut]; cbn; auto.
Qed.

(** How [generate_tts] translates the two errors a caller can cause: a
    dialect outside the closed set is answered with status 400 and the
    text of the [ValueError]; a valid dialect whose model directory is
    missing with status 404.  Both leave the process state as it was. *)
Theorem generate_tts_client_errors `{E : Extern} (request : TTSRequest) (w : World) :
  (req_dialect request ∉ valid_dialects ->
   out (generate_tts request w)
   = inl (HTTPException 400
            (lit "Invalid dialect. Must be one of: ['egyptian', 'emirates', 'ksa', 'kuwaiti']"))
   /\ post (generate_tts request w) = w)
  /\ (req_dialect request ∈ valid_dialects ->
      _models w !! req_dialect request = None ->
      exists_in (fs w) (models_dir // req_dialect request) = false ->
      out (generate_tts request w)
      = inl (HTTPException 404 (lit "Model not found. Please ensure models are downloaded."))
      /\ post (generate_tts request w) = w).
Proof.
  split.
  - intros Hd.
    change (wp (generate_tts request) w (fun run =>
      out run = inl (HTTPException 400
            (lit "Invalid dialect. Must be one of: ['egyptian', 'emirates', 'ksa', 'kuwaiti']"))
      /\ post run = w)).
    unfold generate_tts, generate_audio. rewrite (bool_decide_eq_false_2 _ Hd).
    repeat wp_step; split; reflexivity.
  - intros Hd Hc Hp.
    pose proof (get_model_miss _ _ Hc) as Hg. rewrite (load_model_absent _ _ Hc Hp) in Hg.
    change (wp (generate_tts request) w (fun run =>
      out run = inl (HTTPException 404 (lit "Model not found. Please ensure models are downloaded."))
      /\ post run = w)).
    unfold generate_tts, generate_audio. rewrite (bool_decide_eq_true_2 _ Hd).
    repeat wp_step; split; reflexivity.
Qed.

Lemma generate_tts_client_errors_witness :
  out (generate_tts (E := lab) (MkTTSRequest greeting (lit "french") default_params None) lab_start)
  = inl (HTTPException 400
           (lit "Invalid dialect. Must be one of: ['egyptian', 'emirates', 'ksa', 'kuwaiti']"))
  /\ out (generate_tts (E := lab) (MkTTSRequest greeting (lit "ksa") default_params None) lab_start)
     = inl (HTTPException 404 (lit "Model not found. Please ensure models are downloaded.")).
Proof.
  split.
  - apply (generate_tts_client_errors (E := lab)
             (MkTTSRequest greeting (lit "french") default_params None) lab_start).
    apply (bool_decide_unpack (lit "french" ∉ valid_dialects)). vm_compute. exact I.
  - apply (generate_tts_client_errors (E := lab)
             (MkTTSRequest greeting (lit "ksa") default_params None) lab_start).
    + apply (bool_decide_unpack (lit "ksa" ∈ valid_dialects)). vm_compute. exact I.
    + reflexivity.
    + vm_compute. reflexivity.
Defined.

(** [compare_with_sample] fails with an [HTTPException] of status 404 or
    500 only; it has no 400. *)
Theorem compare_fails_with_http_status `{E : Extern} (request : CompareRequest) (w : World) :
  libraries_raise_no_http ->
  match out (compare_with_sample request w) with
  | inr _ => True
  | inl e => http_status e = Some 404 \/ http_status e = Some 500
  end.
Proof.
  intros Hlib.
  change (wp (compare_with_sample request) w (fun run =>
    match out run with
    | inr _ => True
    | inl e => http_status e = Some 404 \/ http_status e = Some 500
    end)).
  unfold compare_with_sample. repeat first [wp_step | wp_cut]; cbn; auto.
  all: match goal with
       | H : generate_audio ?t ?d ?ps ?r ?o ?w' = MkRun (inl ?e) _ _ |- _ =>
           pose proof (generate_audio_error_not_http t d ps r o w' e Hlib) as Hno;
           rewrite H in Hno; specialize (Hno eq_refl); discriminate
       end.
Qed.

Lemma lab_libraries_raise_no_http : libraries_raise_no_http (E := lab).
Proof.
  repeat split; cbn; intros; try discriminate.
  destruct (vocab =? 2454)%Z; [discriminate|]. now injection H as <-.
Qed.

Lemma compare_fails_with_http_status_witness :
  match out (compare_with_sample (E := lab)
               (MkCompareRequest (lit "egyptian") (lit "sample9") default_params None)
               lab_start) with
  | inr _ => True
  | inl e => http_status e = Some 404 \/ http_status e = Some 500
  end.
Proof.
  apply (compare_fails_with_http_status (E := lab)
           (MkCompareRequest (lit "egyptian") (lit "sample9") default_params None) lab_start).
  exact lab_libraries_raise_no_http.
Defined.

(** The two endpoints answer the same faults differently.  For a sample
    that is in the catalog, [compare_with_sample] answers a dialect outside
    the closed set and a missing model directory with status 500, where
    [generate_tts] answers 400 and 404. *)
Theorem compare_answers_500 `{E : Extern} (request : CompareRequest) (w : World)
    (catalog : gmap pystr (list Sample)) (samples : list Sample) (sample : Sample) :
  stat_at 40 (fs w) METADATA_PATH = Some (MetadataFile catalog) ->
  catalog !! cmp_dialect request = Some samples ->
  List.find (fun s => bool_decide (sample_id s = cmp_sample_id request)) samples = Some sample ->
  (cmp_dialect request ∉ valid_dialects ->
   out (compare_with_sample request w)
   = inl (HTTPException 500
            (lit "Error generating comparison: Invalid dialect. Must be one of: ['egyptian', 'emirates', 'ksa', 'kuwaiti']")))
  /\ (cmp_dialect request ∈ valid_dialects ->
      _models w !! cmp_dialect request = None ->
      exists_in (fs w) (models_dir // cmp_dialect request) = false ->
      out (compare_with_sample request w)
      = inl (HTTPException 500
               (lit "Error generating comparison: " ++ not_found_message (cmp_dialect request)))).
Proof.
  intros Hmeta Hcat Hfind. split.
  - intros Hd.
    change (wp (compare_with_sample request) w (fun run =>
      out run = inl (HTTPException 500
            (lit "Error generating comparison: Invalid dialect. Must be one of: ['egyptian', 'emirates', 'ksa', 'kuwaiti']")))).
    unfold compare_with_sample, generate_audio. rewrite (bool_decide_eq_false_2 _ Hd).
    repeat wp_step; reflexivity.
  - intros Hd Hc Hp.
    pose proof (get_model_miss _ _ Hc) as Hg. rewrite (load_model_absent _ _ Hc Hp) in Hg.
    change (wp (compare_with_sample request) w (fun run =>
      out run = inl (HTTPException 500
               (lit "Error generating comparison: " ++ not_found_message (cmp_dialect request))))).
    unfold compare_with_sample, generate_audio. rewrite (bool_decide_eq_true_2 _ Hd).
    repeat wp_step; reflexivity.
Qed.

Lemma compare_answers_500_witness :
  out (compare_with_sample (E := lab)
         (MkCompareRequest (lit "french") (lit "sample1") default_params None) lab_wide)
  = inl (HTTPException 500
           (lit "Error generating comparison: Invalid dialect. Must be one of: ['egyptian', 'emirates', 'ksa', 'kuwaiti']"))
  /\ out (compare_with_sample (E := lab)
            (MkCompareRequest (lit "ksa") (lit "sample1") default_params None) lab_wide)
     = inl (HTTPException 500
              (lit "Error generating comparison: " ++ not_found_message (E := lab) (lit "ksa"))).
Proof.
  split.
  - apply (compare_answers_500 (E := lab)
             (MkCompareRequest (lit "french") (lit "sample1") default_params None) lab_wide
             lab_wide_catalog [lab_sample] lab_sample);
      try (vm_compute; reflexivity).
    apply (bool_decide_unpack (lit "french" ∉ valid_dialects)). vm_compute. exact I.
  - apply (compare_answers_500 (E := lab)
             (MkCompareRequest (lit "ksa") (lit "sample1") default_params None) lab_wide
             lab_wide_catalog [lab_sample] lab_sample);
      try (vm_compute; reflexivity).
    apply (bool_decide_unpack (lit "ksa" ∈ valid_dialects)). vm_compute. exact I.
Defined.

(** [get_sample_audio] only reads: it leaves the process state as it was
    and calls neither the registry nor the model.  When it answers with a
    file, the file exists and is the audio of the first sample of that
    dialect with the id asked for; otherwise the status is 404 or 500. *)
Theorem get_sample_audio_reads_only `{E : Extern} (dialect id : pystr) (w : World) :
  post (get_sample_audio dialect id w) = w
  /\ Forall (fun ev => library_call ev = false /\ is_write ev = false)
            (emitted (get_sample_audio dialect id w))
  /\ match out (get_sample_audio dialect id w) with
     | inr response =>
         exists_in (fs w) (sf_path response) = true
         /\ exists catalog samples sample,
              stat_at 40 (fs w) METADATA_PATH = Some (MetadataFile catalog)
              /\ catalog !! dialect = Some samples
              /\ List.find (fun s => bool_decide (sample_id s = id)) samples = Some sample
              /\ response = MkSampleFile (TRAINING_SAMPLES_DIR // dialect // sample_filename sample)
                                         (lit "audio/wav") (sample_filename sample)
     | inl e => http_status e = Some 404 \/ http_status e = Some 500
     end.
Proof.
  change (wp (get_sample_audio dialect id) w (fun run =>
    post run = w
    /\ Forall (fun ev => library_call ev = false /\ is_write ev = false) (emitted run)
    /\ match out run with
       | inr response =>
           exists_in (fs w) (sf_path response) = true
           /\ exists catalog samples sample,
                stat_at 40 (fs w) METADATA_PATH = Some (MetadataFile catalog)
                /\ catalog !! dialect = Some samples
                /\ List.find (fun s => bool_decide (sample_id s = id)) samples = Some sample
                /\ response = MkSampleFile (TRAINING_SAMPLES_DIR // dialect // sample_filename sample)
                                           (lit "audio/wav") (sample_filename sample)
       | inl e => http_status e = Some 404 \/ http_status e = Some 500
       end)).
  unfold get_sample_audio. repeat wp_step.
  all: split; [reflexivity|split; [repeat constructor|]]; cbn [http_status]; auto.
  cbn [sf_path]. split; [now apply negb_false_iff|].
  eexists _, _, _. repeat split; eassumption.
Qed.

(** The three ways a sample is not found, each with its own message.
    The last one is where this endpoint and [compare_with_sample] part:
    the comparison goes on without the audio, this endpoint answers 404. *)
Theorem get_sample_audio_not_found `{E : Extern} (dialect id : pystr) (w : World)
    (catalog : gmap pystr (list Sample)) :
  stat_at 40 (fs w) METADATA_PATH = Some (MetadataFile catalog) ->
  (catalog !! dialect = None ->
   out (get_sample_audio dialect id w)
   = inl (HTTPException 404 (lit "Dialect '" ++ dialect ++ lit "' not found")))
  /\ (forall samples,
        catalog !! dialect = Some samples ->
        List.find (fun s => bool_decide (sample_id s = id)) samples = None ->
        out (get_sample_audio dialect id w)
        = inl (HTTPException 404 (lit "Sample '" ++ id ++ lit "' not found")))
  /\ (forall samples sample,
        catalog !! dialect = Some samples ->
        List.find (fun s => bool_decide (sample_id s = id)) samples = Some sample ->
        exists_in (fs w) (TRAINING_SAMPLES_DIR // dialect // sample_filename sample) = false ->
        out (get_sample_audio dialect id w)
        = inl (HTTPException 404 (lit "Audio file not found: " ++ sample_filename sample))).
Proof.
  intros Hmeta. split; [|split].
  - intros Hcat.
    change (wp (get_sample_audio dialect id) w (fun run =>
      out run = inl (HTTPException 404 (lit "Dialect '" ++ dialect ++ lit "' not found")))).
    unfold get_sample_audio; repeat wp_step; reflexivity.
  - intros samples Hcat Hfind.
    change (wp (get_sample_audio dialect id) w (fun run =>
      out run = inl (HTTPException 404 (lit "Sample '" ++ id ++ lit "' not found")))).
    unfold get_sample_audio; repeat wp_step; reflexivity.
  - intros samples sample Hcat Hfind Hp.
    change (wp (get_sample_audio dialect id) w (fun run =>
      out run
      = inl (HTTPException 404 (lit "Audio file not found: " ++ sample_filename sample)))).
    unfold get_sample_audio; repeat wp_step; reflexivity.
Qed.

Lemma get_sample_audio_not_found_witness :
  out (get_sample_audio (E := lab) (lit "egyptian") (lit "sample1") lab_start)
  = inl (HTTPException 404 (lit "Audio file not found: sample1.wav")).
Proof.
  destruct (get_sample_audio_not_found (E := lab) (lit "egyptian") (lit "sample1") lab_start
              lab_catalog) as (_ & _ & H).
  - vm_compute. reflexivity.
  - apply (H [lab_sample] lab_sample); vm_compute; reflexivity.
Defined.

(** The comparison speaks the sample: the text given to the model is the
    normalised text of the first sample of the catalog with the id asked
    for, and the audio prompt is that sample's audio file when the caller
    wants it and the file exists. *)
Theorem compare_speaks_the_sample `{E : Extern} (request : CompareRequest) (w w1 : World)
    (catalog : gmap pystr (list Sample)) (samples : list Sample) (sample : Sample)
    (model : ModelHandle) (ev1 : list Event) :
  stat_at 40 (fs w) METADATA_PATH = Some (MetadataFile catalog) ->
  catalog !! cmp_dialect request = Some samples ->
  List.find (fun s => bool_decide (sample_id s = cmp_sample_id request)) samples = Some sample ->
  cmp_dialect request ∈ valid_dialects ->
  get_model (cmp_dialect request) w = MkRun (inr model) w1 ev1 ->
  In (CallGenerate (oid model) (preprocess_text (sample_text sample))
        (gen_kwargs (cmp_params request)
           (effective_reference (fs w)
              (if use_sample_as_reference request is Some true
               then Some (sample_path request sample) else None))))
     (emitted (compare_with_sample request w)).
Proof.
  intros Hmeta Hcat Hfind Hd Hg.
  set (r := if use_sample_as_reference request is Some true
            then Some (sample_path request sample) else None).
  pose proof (generate_audio_attempts (sample_text sample) (cmp_dialect request)
                (cmp_params request) r None w model w1 ev1 Hd Hg) as Hin.
  destruct (generate_audio (sample_text sample) (cmp_dialect request) (cmp_params request)
              r None w) as [o2 w2 ev2] eqn:Hrun.
  cbn [emitted] in Hin.
  change (wp (compare_with_sample request) w (fun run =>
    In (CallGenerate (oid model) (preprocess_text (sample_text sample))
          (gen_kwargs (cmp_params request) (effective_reference (fs w) r)))
       (emitted run))).
  unfold compare_with_sample, sample_path in *.
  subst r. destruct (use_sample_as_reference request) as [[|]|].
  all: repeat wp_step.
  all: find_event.
Qed.

Lemma compare_speaks_the_sample_witness :
  In (CallGenerate 0 greeting (gen_kwargs default_params None))
     (emitted (compare_with_sample (E := lab) lab_compare lab_start)).
Proof.
  apply (compare_speaks_the_sample (E := lab) lab_compare lab_start lab_warm lab_catalog
           [lab_sample] lab_sample
           (MkModel 0 (lit "/app/models/egyptian") cpu 2454 24000)
           (emitted (get_model (E := lab) (lit "egyptian") lab_start)));
    try (vm_compute; reflexivity).
  apply (bool_decide_unpack (lit "egyptian" ∈ valid_dialects)). vm_compute. exact I.
Defined.


Lemma upload_reference_audio_success (open_wb_raises : FS -> Path -> option exn)
    (unique filename : pystr) (w : World) (response : Upload) :
  out (upload_reference_audio open_wb_raises unique filename w) = inr response ->
  (exists c name, up_filename response = c :: name)
  /\ up_path response = TEMP_REFERENCE_DIR // up_filename response
  /\ fs (post (upload_reference_audio open_wb_raises unique filename w))
     = <[up_path response := File]> (fs w).
Proof.
  change (wp (upload_reference_audio open_wb_raises unique filename) w (fun run =>
    out run = inr response ->
    (exists c name, up_filename response = c :: name)
    /\ up_path response = TEMP_REFERENCE_DIR // up_filename response
    /\ fs (post run) = <[up_path response := File]> (fs w))).
  unfold upload_reference_audio, write_upload. repeat wp_step.
  all: intros [= <-]. cbn [up_filename up_path].
  split; [eexists _, _; reflexivity|]. split; reflexivity.
Qed.

Section Upload.
Context `{E : Extern}.

Lemma exists_in_file (files : FS) (p : Path) : exists_in (<[p := File]> files) p = true.
Proof.
  unfold exists_in. apply bool_decide_eq_true_2. cbn [stat_at].
  rewrite lookup_insert_eq. eexists. reflexivity.
Qed.

End Upload.

(** Upload and use compose: the file name a successful upload returns,
    given as [reference_audio_file] of a later [generate_tts] request, is
    found, and its path is the audio prompt of the call of the model. *)
Theorem uploaded_reference_is_used `{E : Extern} (open_wb_raises : FS -> Path -> option exn)
    (unique filename : pystr) (w w1 : World) (response : Upload) (request : TTSRequest)
    (model : ModelHandle) (ev1 : list Event) :
  out (upload_reference_audio open_wb_raises unique filename w) = inr response ->
  reference_audio_file request = Some (up_filename response) ->
  req_dialect request ∈ valid_dialects ->
  get_model (req_dialect request)
            (post (upload_reference_audio open_wb_raises unique filename w))
  = MkRun (inr model) w1 ev1 ->
  In (CallGenerate (oid model) (preprocess_text (req_text request))
        (gen_kwargs (req_params request) (Some (up_path response))))
     (emitted (generate_tts request
                 (post (upload_reference_audio open_wb_raises unique filename w)))).
Proof.
  intros Hup Hfile Hd Hg.
  destruct (upload_reference_audio_success open_wb_raises unique filename w response Hup)
    as ((c & name & Hcons) & Hpath & Hpost).
  set (w' := post (upload_reference_audio open_wb_raises unique filename w)) in *.
  assert (exists_in (fs w') (up_path response) = true) as Hp
    by (rewrite Hpost; apply exists_in_file).
  pose proof (generate_audio_attempts (req_text request) (req_dialect request)
                (req_params request) (Some (up_path response)) None w' model w1 ev1 Hd Hg)
    as Hin.
  cbn [effective_reference] in Hin. rewrite Hp in Hin.
  rewrite Hcons in Hfile, Hpath. rewrite Hpath in Hp, Hin |- *.
  destruct (generate_audio (req_text request) (req_dialect request) (req_params request)
              (Some (TEMP_REFERENCE_DIR // (c :: name))) None w') as [o2 w2 ev2] eqn:Hrun.
  cbn [emitted] in Hin.
  change (wp (generate_tts request) w' (fun run =>
    In (CallGenerate (oid model) (preprocess_text (req_text request))
          (gen_kwargs (req_params request) (Some (TEMP_REFERENCE_DIR // (c :: name)))))
       (emitted run))).
  unfold generate_tts. repeat wp_step.
  all: find_event.
Qed.

Lemma uploaded_reference_is_used_witness :
  out (upload_reference_audio (fun _ _ => None)
         (lit "1a2b3c4d-0000-4000-8000-000000000000") (lit "voice.wav") lab_start)
  = inr (MkUpload (lit "success") (lit "reference_1a2b3c4d.wav")
                  (lit "temp_reference_audio/reference_1a2b3c4d.wav"))
  /\ In (CallGenerate 0 greeting
           (gen_kwargs default_params (Some (lit "temp_reference_audio/reference_1a2b3c4d.wav"))))
        (emitted (generate_tts (E := lab) lab_request
                    (post (upload_reference_audio (fun _ _ => None)
                             (lit "1a2b3c4d-0000-4000-8000-000000000000") (lit "voice.wav")
                             lab_start)))).
Proof.
  assert (out (upload_reference_audio (fun _ _ => None)
                 (lit "1a2b3c4d-0000-4000-8000-000000000000") (lit "voice.wav") lab_start)
          = inr (MkUpload (lit "success") (lit "reference_1a2b3c4d.wav")
                          (lit "temp_reference_audio/reference_1a2b3c4d.wav"))) as Hup
    by (vm_compute; reflexivity).
  split; [exact Hup|].
  apply (uploaded_reference_is_used (E := lab) (fun _ _ => None)
           (lit "1a2b3c4d-0000-4000-8000-000000000000") (lit "voice.wav") lab_start
           (post (get_model (E := lab) (lit "egyptian")
                    (post (upload_reference_audio (fun _ _ => None)
                             (lit "1a2b3c4d-0000-4000-8000-000000000000") (lit "voice.wav")
                             lab_start))))
           (MkUpload (lit "success") (lit "reference_1a2b3c4d.wav")
                     (lit "temp_reference_audio/reference_1a2b3c4d.wav"))
           lab_request
           (MkModel 0 (lit "/app/models/egyptian") cpu 2454 24000)
           (emitted (get_model (E := lab) (lit "egyptian")
                       (post (upload_reference_audio (fun _ _ => None)
                                (lit "1a2b3c4d-0000-4000-8000-000000000000") (lit "voice.wav")
                                lab_start)))) Hup).
  - reflexivity.
  - apply (bool_decide_unpack (lit "egyptian" ∈ valid_dialects)). vm_compute. exact I.
  - vm_compute. reflexivity.
Defined.

(** ** Text and samples *)

Section Words.

Lemma scan_plain_app x s :
  plain x -> scan (x ++ s) = (x ++ fst (scan s), snd (scan s)).
Proof.
  induction 1 as [|c x Hc _ IH]; cbn [app].
  - now destruct (scan s).
  - rewrite scan_cons, Hc, IH. reflexivity.
Qed.

Lemma scan_spaced l : Forall word l -> scan (spaced l) = ([], l).
Proof.
  induction 1 as [|y l [Hne Hy] _ IH]; [reflexivity|].
  unfold spaced. cbn [List.map concat]. fold (spaced l). cbn [app].
  rewrite scan_cons. change (isspace SP) with true. cbn iota.
  rewrite (scan_plain_app y (spaced l) Hy), IH. cbn [fst snd]. rewrite app_nil_r.
  destruct y; [congruence|reflexivity].
Qed.

Lemma split_words s : Forall word (split s).
Proof.
  rewrite split_scan. destruct (scan_words s) as [Hw Hr].
  destruct (fst (scan s)) as [|c w] eqn:Hf; cbn [push]; [exact Hr|].
  constructor; [split; [discriminate|exact Hw]|exact Hr].
Qed.

Lemma split_join l : Forall word l -> split (join [SP] l) = l.
Proof.
  intros Hl. destruct Hl as [|x l [Hne Hx] Hl]; [reflexivity|].
  rewrite join_spaced, split_scan, (scan_plain_app x (spaced l) Hx), (scan_spaced l Hl).
  cbn [fst snd]. rewrite app_nil_r. destruct x; [congruence|reflexivity].
Qed.

End Words.

(** [split] undoes [join]: the words of a text survive the
    normalisation, so [preprocess_text] is idempotent: a text that was
    normalised once is not changed by a second pass. *)
Theorem preprocess_text_is_idempotent (text : pystr) :
  split (preprocess_text text) = split text
  /\ preprocess_text (preprocess_text text) = preprocess_text text.
Proof.
  assert (split (preprocess_text text) = split text) as H
    by (unfold preprocess_text; apply split_join, split_words).
  split; [exact H|]. unfold preprocess_text in *. now rewrite H.
Qed.

Section NaN.

Lemma f32_max_nan_l b : f32_max S754_nan b = S754_nan.
Proof. reflexivity. Qed.

Lemma f32_max_nan_r a : f32_max a S754_nan = S754_nan.
Proof. unfold f32_max. now destruct a. Qed.

Lemma fold_f32_max_nan xs : fold_left f32_max xs S754_nan = S754_nan.
Proof. induction xs as [|x xs IH]; [reflexivity|]. cbn [fold_left]. now rewrite f32_max_nan_l. Qed.

Lemma fold_f32_max_poisoned xs : forall a,
  In S754_nan xs -> fold_left f32_max xs a = S754_nan.
Proof.
  induction xs as [|x xs IH]; intros a Hin; [contradiction|].
  cbn [fold_left]. destruct Hin as [->|Hin].
  - rewrite f32_max_nan_r. apply fold_f32_max_nan.
  - now apply IH.
Qed.

Lemma torch_max_poisoned (xs : list float32) :
  In S754_nan xs -> torch_max xs = Some S754_nan.
Proof.
  destruct xs as [|x xs]; [contradiction|]. intros [->|Hin]; cbn [torch_max s_max float32_ops].
  - now rewrite fold_f32_max_nan.
  - now rewrite fold_f32_max_poisoned.
Qed.

Lemma f32_div_nan x : SFdiv 24 128 x S754_nan = S754_nan.
Proof. now destruct x. Qed.

End NaN.

(** One NaN among the generated samples poisons the whole file:
    [torch.max] propagates it into the peak, and every sample divided by
    that peak is NaN. *)
Theorem nan_sample_poisons_the_file (audio : Tensor float32) :
  In S754_nan (data audio) ->
  exists saved,
    finalize_waveform audio = Some saved
    /\ length (data saved) = length (data audio)
    /\ Forall (fun x => f32_is_nan x = true) (data saved).
Proof.
  intros Hin. unfold finalize_waveform, peak_normalize.
  assert (torch_max (List.map s_abs (data audio)) = Some S754_nan) as Hpeak.
  { apply torch_max_poisoned. change S754_nan with (SFabs S754_nan).
    apply (in_map SFabs). exact Hin. }
  destruct (Nat.eqb (dim audio) 1); cbn [data unsqueeze0]; rewrite Hpeak;
    eexists; (split; [reflexivity|]); cbn [data];
    (split; [apply length_map|]);
    apply Forall_forall; intros x Hx; apply list_elem_of_In, in_map_iff in Hx;
    destruct Hx as (y & <- & _); cbn [s_div float32_ops]; now rewrite f32_div_nan.
Qed.

Lemma nan_sample_poisons_the_file_witness :
  exists saved,
    finalize_waveform (MkTensor [2%nat] [f32_three_tenths; S754_nan]) = Some saved
    /\ length (data saved) = 2%nat
    /\ Forall (fun x => f32_is_nan x = true) (data saved).
Proof.
  apply (nan_sample_poisons_the_file (MkTensor [2%nat] [f32_three_tenths; S754_nan])).
  right. left. reflexivity.
Defined.

Section Names.
Context `{E : Extern}.

Lemma path_join_inj (p : Path) (c1 c2 : N) (s1 s2 : pystr) :
  c1 <> SLASH -> c2 <> SLASH ->
  p // (c1 :: s1) = p // (c2 :: s2) -> c1 :: s1 = c2 :: s2.
Proof.
  intros H1 H2. unfold path_join.
  rewrite (proj2 (N.eqb_neq c1 SLASH) H1), (proj2 (N.eqb_neq c2 SLASH) H2).
  destruct p as [|c p]; cbn iota.
  - easy.
  - intros H. apply (app_inv_head (c :: p)) in H. congruence.
Qed.

End Names.

(** The default file names keep the dialects apart: whatever the two
    texts, requests for different dialects are never saved to the same
    file. *)
Theorem default_paths_separate_dialects `{E : Extern} (text1 text2 d1 d2 : pystr)
    (p1 p2 : Path) :
  d1 ∈ valid_dialects -> d2 ∈ valid_dialects -> d1 <> d2 ->
  default_output_path text1 d1 = Some p1 ->
  default_output_path text2 d2 = Some p2 ->
  p1 <> p2.
Proof.
  unfold default_output_path. intros H1 H2 Hne.
  destruct (encode text1) as [b1|]; [|discriminate].
  destruct (encode text2) as [b2|]; [|discriminate].
  intros [= <-] [= <-] Hp.
  generalize dependent (take 8 (md5_hexdigest b1)).
  generalize dependent (take 8 (md5_hexdigest b2)).
  intros h2 h1 Hp.
  unfold valid_dialects in H1, H2.
  repeat (apply elem_of_cons in H1 as [->|H1]); [| | | |now apply elem_of_nil in H1].
  all: repeat (apply elem_of_cons in H2 as [->|H2]); [| | | |now apply elem_of_nil in H2].
  all: try congruence.
  all: match type of Hp with
       | ?p // (lit ?a ++ ?x) = ?p // (lit ?b ++ ?y) =>
           let la := eval vm_compute in (lit a) in
           let lb := eval vm_compute in (lit b) in
           change (lit a) with la in Hp; change (lit b) with lb in Hp
       end;
       cbn [app] in Hp; apply path_join_inj in Hp; [|discriminate|discriminate];
       discriminate.
Qed.

Lemma default_paths_separate_dialects_witness :
  default_output_path (E := lab) greeting (lit "ksa")
  = Some (lit "/app/generated_audio/ksa_95818d88.wav")
  /\ lit "/app/generated_audio/egyptian_95818d88.wav"
     <> lit "/app/generated_audio/ksa_95818d88.wav".
Proof.
  split; [vm_compute; reflexivity|].
  apply (default_paths_separate_dialects (E := lab) greeting greeting
           (lit "egyptian") (lit "ksa")).
  - apply (bool_decide_unpack (lit "egyptian" ∈ valid_dialects)). vm_compute. exact I.
  - apply (bool_decide_unpack (lit "ksa" ∈ valid_dialects)). vm_compute. exact I.
  - discriminate.
  - vm_compute. reflexivity.
  - vm_compute. reflexivity.
Defined.

(** ** modal_api.py *)



(** A dialect that is not among the loaded models is refused with
    [ValueError] before the clock is read or the model called; the state
    is as it was. *)
Theorem modal_generate_unknown_dialect `{E : Extern}
    (models : gmap pystr ModelHandle) (save_to_buffer_raises : Tensor float32 -> Z -> option exn)
    (text d : pystr) (params : SamplingParams) (r : option pystr) (w : World) :
  models !! d = None ->
  modal_generate models save_to_buffer_raises text d params r w
  = MkRun (inl (ValueError (lit "Unknown dialect: " ++ d))) w
          [Log INFO "TTS Request: {dialect} - {text[:50]}..." [d; take 50 text]].
Proof.
  intros Hd. wp_start. unfold modal_generate. repeat wp_step. reflexivity.
Qed.

Lemma modal_generate_unknown_dialect_witness :
  out (modal_generate (E := lab) ∅ (fun _ _ => None) greeting (lit "egyptian")
         default_params None lab_start)
  = inl (ValueError (lit "Unknown dialect: egyptian")).
Proof.
  rewrite (modal_generate_unknown_dialect (E := lab) ∅ (fun _ _ => None) greeting
             (lit "egyptian") default_params None lab_start).
  - reflexivity.
  - reflexivity.
Defined.



